(** * The logon-pending state of the quickfix session state machine

    A shallow embedding of [logon_state.go] (package [quickfix]): the
    [logonState] handlers [FixMsgIn], [Timeout] and [Stop], the helper
    [shutdownWithReason], and the two Go standard-library functions the
    handler relies on, [regexp.FindStringSubmatch] and [strconv.Atoi]. *)

From Stdlib Require Import ZArith Lia Ascii String List Bool.
From stdpp Require Import base option gmap.
Import ListNotations.

Local Open Scope string_scope.
Local Open Scope Z_scope.

(** ** Go bytes and strings

    A Go [string] and a [[]byte] are both sequences of bytes; they are
    embedded as [String.string], a list of 8-bit [ascii] characters. *)

Definition byte_val (c : ascii) : Z := Z.of_N (N_of_ascii c).

(** [bytes.Equal]: same length and same bytes. *)
Definition bytes_Equal (a b : string) : bool := String.eqb a b.

(** ['0' <= c && c <= '9'] *)
Definition is_digit (c : ascii) : bool :=
  (48 <=? byte_val c) && (byte_val c <=? 57).

Fixpoint all_digits (s : string) : bool :=
  match s with
  | EmptyString => true
  | String c s' => is_digit c && all_digits s'
  end.

(** Every byte of [s] at an offset in [a, b) is a decimal digit. *)
Definition digits_between (s : string) (a b : nat) : Prop :=
  forall i, (a <= i < b)%nat ->
            exists ch, String.get i s = Some ch /\ is_digit ch = true.

(** The text [t] stands in [s] at offset [p]. *)
Definition occurs_at (t s : string) (p : nat) : Prop :=
  forall i, (i < String.length t)%nat -> String.get (p + i) s = String.get i t.

(** The number a string of decimal digits denotes, read left to right
    from the accumulator [acc]. *)
Fixpoint decimal_from (acc : Z) (s : string) : Z :=
  match s with
  | EmptyString => acc
  | String c s' => decimal_from (acc * 10 + (byte_val c - 48)) s'
  end.

Definition decimal (s : string) : Z := decimal_from 0 s.

(** ** strconv.Atoi (Go standard library), on a 64-bit platform *)

Module strconv.

Definition intSize : Z := 64.
Definition maxUint64 : Z := 2 ^ 64 - 1.
Definition maxInt : Z := 2 ^ (intSize - 1) - 1.

(** Wrap-around of the unsigned 64-bit and of the signed [int] type. *)
Definition wrap_uint64 (x : Z) : Z := x mod 2 ^ 64.
Definition wrap_int (x : Z) : Z :=
  (x + 2 ^ (intSize - 1)) mod 2 ^ intSize - 2 ^ (intSize - 1).
Definition wrap_byte (x : Z) : Z := x mod 256.

Inductive ErrKind := ErrSyntax | ErrRange.

(** [strconv.NumError] *)
Record NumError := mkNumError { Func : string; Num : string; Err : ErrKind }.

Definition syntaxError (fn str : string) : NumError := mkNumError fn str ErrSyntax.
Definition rangeError (fn str : string) : NumError := mkNumError fn str ErrRange.

(** [Quote], for text in which no byte needs an escape. *)
Definition Quote (s : string) : string :=
  String "034"%char (s ++ String "034"%char EmptyString).

(** The [Error] method of [NumError]. *)
Definition NumError_Error (e : NumError) : string :=
  "strconv." ++ Func e ++ ": parsing " ++ Quote (Num e) ++ ": " ++
  match Err e with
  | ErrSyntax => "invalid syntax"
  | ErrRange => "value out of range"
  end.

(** The digit loop of [ParseUint] for base 10 and bit size 64; [n] is the
    [uint64] accumulator. A byte that is not a decimal digit is a syntax
    error (letters are digits of a larger base, [_] is only read in base 0). *)
Fixpoint ParseUint_loop (s0 s : string) (n : Z) : Z * option NumError :=
  match s with
  | EmptyString => (n, None)
  | String c s' =>
    if is_digit c then
      let d := wrap_byte (byte_val c - 48) in
      let cutoff := maxUint64 / 10 + 1 in
      let maxVal := wrap_uint64 (2 ^ 64 - 1) in
      if n >=? cutoff then (maxVal, Some (rangeError "ParseUint" s0))
      else
        let n' := wrap_uint64 (n * 10) in
        let n1 := wrap_uint64 (n' + d) in
        if (n1 <? n') || (n1 >? maxVal)
        then (maxVal, Some (rangeError "ParseUint" s0))
        else ParseUint_loop s0 s' n1
    else (0, Some (syntaxError "ParseUint" s0))
  end.

(** [ParseUint(s, 10, 0)] *)
Definition ParseUint (s : string) : Z * option NumError :=
  match s with
  | EmptyString => (0, Some (syntaxError "ParseUint" s))
  | _ => ParseUint_loop s s 0
  end.

(** [ParseInt(s, 10, 0)] *)
Definition ParseInt (s : string) : Z * option NumError :=
  match s with
  | EmptyString => (0, Some (syntaxError "ParseInt" s))
  | String c0 rest =>
    let s0 := s in
    let '(neg, s) :=
      if Ascii.eqb c0 "+" then (false, rest)
      else if Ascii.eqb c0 "-" then (true, rest)
      else (false, s) in
    let '(un, err) := ParseUint s in
    let not_range :=
      match err with
      | Some e => match Err e with ErrRange => false | ErrSyntax => true end
      | None => false
      end in
    if not_range then (0, Some (syntaxError "ParseInt" s0))
    else
      let cutoff := wrap_uint64 (2 ^ (intSize - 1)) in
      if negb neg && (un >=? cutoff) then (cutoff - 1, Some (rangeError "ParseInt" s0))
      else if neg && (un >? cutoff) then (- cutoff, Some (rangeError "ParseInt" s0))
      else (if neg then wrap_int (- wrap_int un) else wrap_int un, None)
  end.

(** The fast path of [Atoi]: [n = n*10 + int(ch)] over bytes [ch - '0'],
    stopping with [None] at a byte larger than 9. *)
Fixpoint Atoi_fast_loop (s : string) (n : Z) : option Z :=
  match s with
  | EmptyString => Some n
  | String ch s' =>
    let ch := wrap_byte (byte_val ch - 48) in
    if ch >? 9 then None else Atoi_fast_loop s' (wrap_int (n * 10 + ch))
  end.

Definition Atoi (s : string) : Z * option NumError :=
  let sLen := Z.of_nat (String.length s) in
  if (0 <? sLen) && (sLen <? 19) then
    match s with
    | EmptyString => (0, Some (syntaxError "Atoi" s))
    | String c0 rest =>
      let s0 := s in
      let signed := Ascii.eqb c0 "-" || Ascii.eqb c0 "+" in
      if signed && (Z.of_nat (String.length rest) <? 1)
      then (0, Some (syntaxError "Atoi" s0))
      else
        match Atoi_fast_loop (if signed then rest else s) 0 with
        | None => (0, Some (syntaxError "Atoi" s0))
        | Some n => (if Ascii.eqb c0 "-" then wrap_int (- n) else n, None)
        end
    end
  else
    let '(i64, err) := ParseInt s in
    (wrap_int i64,
     match err with
     | Some nerr => Some (mkNumError "Atoi" (Num nerr) (Err nerr))
     | None => None
     end).

End strconv.

(** ** regexp (Go standard library)

    The fragment of the regular-expression syntax that the pattern of
    [msgSeqNumTooLowRegex] uses: literal text, the class [\d], the greedy
    repetition [+], concatenation and a numbered capturing group. Matching
    is leftmost-first, as in Go: the search tries each start offset from the
    left, and at one offset a repetition prefers more iterations. *)

Module regexp.

Inductive Regexp :=
| Lit (l : string)
| Digit
| Plus (r : Regexp)
| Cat (r1 r2 : Regexp)
| Capture (i : nat) (r : Regexp).

(** Number of capturing groups. *)
Fixpoint NumSubexp (r : Regexp) : nat :=
  match r with
  | Lit _ | Digit => 0%nat
  | Plus r => NumSubexp r
  | Cat r1 r2 => (NumSubexp r1 + NumSubexp r2)%nat
  | Capture _ r => S (NumSubexp r)
  end.

(** Does the literal [l] occur in [s] at offset [p]? *)
Fixpoint lit_at (l s : string) (p : nat) : bool :=
  match l with
  | EmptyString => true
  | String a l' =>
    match String.get p s with
    | Some b => Ascii.eqb a b && lit_at l' s (S p)
    | None => false
    end
  end.

(** Offsets [(start, end)] of each group that took part in the match. *)
Abbreviation caps := (gmap nat (nat * nat)).

Section Matcher.
Context {R : Type}.

(** Greedy repetition, one or more times: run [body], then prefer a
    further iteration over the continuation [k]. *)
Fixpoint iterate (body : nat -> caps -> (nat -> caps -> option R) -> option R)
         (k : nat -> caps -> option R) (fuel : nat) (p : nat) (c : caps)
         {struct fuel} : option R :=
  match fuel with
  | O => None
  | S fuel' =>
    body p c (fun q c' =>
      match iterate body k fuel' q c' with
      | Some x => Some x
      | None => k q c'
      end)
  end.

(** Backtracking matcher in continuation-passing style: [step r s p c k]
    matches [r] in [s] from offset [p] and hands the end offset and the
    groups to [k]; when [k] fails the next alternative is tried. One
    iteration of a repetition consumes at least one byte here, so the
    fuel [S (length s - p)] of the loop never runs out before the input. *)
Fixpoint step (r : Regexp) (s : string) (p : nat) (c : caps)
         (k : nat -> caps -> option R) {struct r} : option R :=
  match r with
  | Lit l => if lit_at l s p then k (p + String.length l)%nat c else None
  | Digit =>
    match String.get p s with
    | Some ch => if is_digit ch then k (S p) c else None
    | None => None
    end
  | Cat r1 r2 => step r1 s p c (fun q c' => step r2 s q c' k)
  | Capture i r => step r s p c (fun q c' => k q (<[i := (p, q)]> c'))
  | Plus r => iterate (step r s) k (S (String.length s - p)) p c
  end.
End Matcher.

(** The match that starts at offset [p], if any: its end and its groups. *)
Definition match_at (re : Regexp) (s : string) (p : nat) : option (nat * caps) :=
  step re s p ∅ (fun q c => Some (q, c)).

(** Leftmost match at an offset in [p, p + fuel). *)
Fixpoint search (re : Regexp) (s : string) (fuel p : nat) : option (nat * nat * caps) :=
  match fuel with
  | O => None
  | S fuel' =>
    match match_at re s p with
    | Some (q, c) => Some (p, q, c)
    | None => search re s fuel' (S p)
    end
  end.

(** [s[a:b]] *)
Definition slice (s : string) (a b : nat) : string := String.substring a (b - a) s.

(** [re.FindStringSubmatch(s)]: [None] is Go's [nil]; otherwise entry 0 is
    the text of the match and entry [i] the text of group [i], empty when
    the group took no part. *)
Definition FindStringSubmatch (re : Regexp) (s : string) : option (list string) :=
  match search re s (S (String.length s)) 0 with
  | None => None
  | Some (p, q, c) =>
    Some (slice s p q ::
          map (fun i => match c !! i with
                        | Some (a, b) => slice s a b
                        | None => EmptyString
                        end) (seq 1 (NumSubexp re)))
  end.

End regexp.

(** ** The data model of package [quickfix] that [logon_state.go] uses *)

(** A FIX tag number. *)
Abbreviation Tag := Z (only parsing).

(** Modelled from the spec: the tag and message-type constants are declared
    outside [logon_state.go] (section 6: MsgType in the header, Text in the
    body, compared against fixed type constants); the values are those of
    the FIX protocol. *)
Definition tagMsgType : Tag := 35.
Definition tagText : Tag := 58.
Definition msgTypeLogon : string := "A".
Definition msgTypeLogout : string := "5".

(** The dynamic types of the [error] values the handler tells apart with its
    type switch, each carrying the text its [Error()] method returns. *)
Inductive error :=
| RejectLogon (Text : string)
| targetTooLow (text : string)
| targetTooHigh (text : string)
| fieldError (tag : Tag) (text : string)
| numError (e : strconv.NumError)
| otherError (text : string).

Definition Error (err : error) : string :=
  match err with
  | RejectLogon t | targetTooLow t | targetTooHigh t
  | fieldError _ t | otherError t => t
  | numError e => strconv.NumError_Error e
  end.

(** Modelled from the spec: [FieldMap] and its lookups are declared outside
    [logon_state.go] (section 3: a mapping from field tag to raw value; a
    lookup fails with a distinct error when the tag is missing). *)
Abbreviation FieldMap := (gmap Z string).

Record Message := mkMessage { Header : FieldMap; Body : FieldMap }.

Definition GetBytes (m : FieldMap) (tag : Tag) : string + error :=
  match m !! tag with
  | Some v => inl v
  | None => inr (fieldError tag "Conditionally Required Field Missing")
  end.

Definition GetString (m : FieldMap) (tag : Tag) : string + error :=
  GetBytes m tag.

Record SessionID := mkSessionID {
  BeginString : string;
  SenderCompID : string;
  TargetCompID : string;
  Qualifier : string
}.

(** The closed set of session states. [logon_state.go] names three of them;
    [delegated] stands for the states only the collaborators produce (the
    resend state of the too-high recovery, for one). *)
Inductive sessionState :=
| latentState
| logonState
| inSession
| delegated (name : string).

(** Modelled from the spec: [internal.Event] is declared outside
    [logon_state.go] (section 5: timeouts are discrete named events, among
    them logon-wait expiry and heartbeat). *)
Inductive Event := PeerTimeout | NeedHeartbeat | LogonTimeout | LogoutTimeout.

(** ** Effects

    The handlers act on the session through its collaborators: the log, the
    message store, the application and the session's own methods. Every such
    call is recorded, with its arguments, in the session's journal. *)

Inductive LogArg := ArgMessage (m : Message) | ArgInt (n : Z).

Inductive Call :=
| log_OnEvent (text : string)
| log_OnEventf (format : string) (arg : LogArg)
| session_logError (err : error)
| session_handleLogon (msg : Message)
| session_doTargetTooHigh (err : error)
| session_dropAndSendInReplyTo (logout inReplyTo : Message)
| store_IncrNextTargetMsgSeqNum
| session_forceNextSenderMsgSeqNum (seqNum : Z)
| application_InSession (id : SessionID).

(** What the collaborators answer. Their code is outside [logon_state.go];
    [W] is whatever state they keep (store contents, connection, ...). *)
Class Collaborators (W : Type) := {
  handleLogon : Message -> W -> option error * W;
  doTargetTooHigh : error -> W -> (sessionState * option error) * W;
  buildLogout : string -> W -> Message;
  dropAndSendInReplyTo : Message -> Message -> W -> option error * W;
  IncrNextTargetMsgSeqNum : W -> option error * W;
  forceNextSenderMsgSeqNum : Z -> W -> option error * W;
  InSession : SessionID -> W -> W
}.

Record session (W : Type) := mkSession {
  sessionID : SessionID;
  LogonForceSenderMsgSeqNum : bool;
  world : W;
  journal : list Call
}.
Arguments mkSession {W}.
Arguments sessionID {W}.
Arguments LogonForceSenderMsgSeqNum {W}.
Arguments world {W}.
Arguments journal {W}.

(** A Go call either returns or panics. *)
Inductive result (A : Type) :=
| Returned (a : A)
| Panicked (why : string).
Arguments Returned {A}.
Arguments Panicked {A}.

(** Computations on a session passed by pointer. *)
Definition M (W A : Type) : Type := session W -> result A * session W.

Definition ret {W A} (a : A) : M W A := fun s => (Returned a, s).

Definition bind {W A B} (m : M W A) (f : A -> M W B) : M W B :=
  fun s =>
    match m s with
    | (Returned a, s') => f a s'
    | (Panicked why, s') => (Panicked why, s')
    end.

Declare Scope go_scope.
Delimit Scope go_scope with go.
Notation "x <- m ;; k" := (bind m (fun x => k))
  (at level 100, m at next level, right associativity) : go_scope.
Notation "m ;; k" := (bind m (fun _ => k))
  (at level 100, right associativity) : go_scope.

Definition panic {W A} (why : string) : M W A := fun s => (Panicked why, s).

(** Read a field of the session. *)
Definition gets {W A} (f : session W -> A) : M W A := fun s => (Returned (f s), s).

(** Record the call [c] and let the collaborator [f] answer it. *)
Definition call {W A} (c : Call) (f : W -> A * W) : M W A :=
  fun s =>
    let '(a, w) := f (world s) in
    (Returned a,
     mkSession (sessionID s) (LogonForceSenderMsgSeqNum s) w (journal s ++ [c])).

(** [res[i]]: indexing a slice out of range panics. *)
Definition index {W} (res : list string) (i : nat) : M W string :=
  match nth_error res i with
  | Some x => ret x
  | None => panic "index out of range"
  end.

Section LogonState.
Context {W : Type} `{Collaborators W}.
Local Open Scope go_scope.

Definition OnEvent (text : string) : M W unit :=
  call (log_OnEvent text) (fun w => (tt, w)).

Definition OnEventf (format : string) (arg : LogArg) : M W unit :=
  call (log_OnEventf format arg) (fun w => (tt, w)).

Definition logError (err : error) : M W unit :=
  call (session_logError err) (fun w => (tt, w)).

(** Modelled from the spec: [handleStateError] is declared outside
    [logon_state.go] (section 7: the shared state-error handler logs the
    error and transitions the session to the latent state). *)
Definition handleStateError (err : error) : M W sessionState :=
  logError err ;; ret latentState.

(** var msgSeqNumTooLowRegex =
      regexp.MustCompile(`MsgSeqNum too low, expecting (\d+) but received \d+`) *)
Definition msgSeqNumTooLowRegex : regexp.Regexp :=
  regexp.Cat (regexp.Lit "MsgSeqNum too low, expecting ")
    (regexp.Cat (regexp.Capture 1 (regexp.Plus regexp.Digit))
       (regexp.Cat (regexp.Lit " but received ")
          (regexp.Plus regexp.Digit))).

Definition shutdownWithReason (msg : Message) (incrNextTargetMsgSeqNum : bool)
           (reason : string) : M W sessionState :=
  OnEvent reason ;;
  logout <- gets (fun s => buildLogout reason (world s)) ;;
  err <- call (session_dropAndSendInReplyTo logout msg)
              (dropAndSendInReplyTo logout msg) ;;
  match err with Some e => logError e | None => ret tt end ;;
  (if incrNextTargetMsgSeqNum then
     err <- call store_IncrNextTargetMsgSeqNum IncrNextTargetMsgSeqNum ;;
     match err with Some e => logError e | None => ret tt end
   else ret tt) ;;
  ret latentState.

Definition FixMsgIn (msg : Message) : M W sessionState :=
  match GetBytes (Header msg) tagMsgType with
  | inr err => handleStateError err
  | inl msgType =>
    if bytes_Equal msgType msgTypeLogout then
      OnEventf "Invalid Session State: Received Logout %s while waiting for Logon"
               (ArgMessage msg) ;;
      match GetString (Body msg) tagText with
      | inr err => handleStateError err
      | inl reason =>
        match regexp.FindStringSubmatch msgSeqNumTooLowRegex reason with
        | None => ret latentState
        | Some res =>
          force <- gets LogonForceSenderMsgSeqNum ;;
          if force : bool then
            digits <- index res 1 ;;
            match strconv.Atoi digits with
            | (_, Some err) => handleStateError (numError err)
            | (expectedMsgSeqNum, None) =>
              OnEventf "Forcing next sender message sequence number to %d"
                       (ArgInt expectedMsgSeqNum) ;;
              err <- call (session_forceNextSenderMsgSeqNum expectedMsgSeqNum)
                          (forceNextSenderMsgSeqNum expectedMsgSeqNum) ;;
              match err with
              | Some e => handleStateError e
              | None => ret latentState
              end
            end
          else ret latentState
        end
      end
    else if negb (bytes_Equal msgType msgTypeLogon) then
      OnEventf "Invalid Session State: Received Msg %s while waiting for Logon"
               (ArgMessage msg) ;;
      ret latentState
    else
      err <- call (session_handleLogon msg) (handleLogon msg) ;;
      match err with
      | Some (RejectLogon _ as err) => shutdownWithReason msg true (Error err)
      | Some (targetTooLow _ as err) => shutdownWithReason msg false (Error err)
      | Some (targetTooHigh _ as err) =>
        r <- call (session_doTargetTooHigh err) (doTargetTooHigh err) ;;
        match r with
        | (_, Some tooHighErr) => shutdownWithReason msg false (Error tooHighErr)
        | (nextState, None) => ret nextState
        end
      | Some err => handleStateError err
      | None =>
        id <- gets sessionID ;;
        call (application_InSession id) (fun w => (tt, InSession id w)) ;;
        ret inSession
      end
  end.

Definition Timeout (e : Event) : M W sessionState :=
  match e with
  | LogonTimeout =>
    OnEvent "Timed out waiting for logon response" ;;
    ret latentState
  | _ => ret logonState
  end.

Definition Stop : M W sessionState := ret latentState.

End LogonState.

(** ** Reading a journal *)

(** [s] with the calls [cs] appended to its journal. *)
Definition journaled {W} (s : session W) (cs : list Call) : session W :=
  mkSession (sessionID s) (LogonForceSenderMsgSeqNum s) (world s) (journal s ++ cs).

(** [s] with its collaborators left in state [w] and [cs] appended. *)
Definition advanced {W} (s : session W) (w : W) (cs : list Call) : session W :=
  mkSession (sessionID s) (LogonForceSenderMsgSeqNum s) w (journal s ++ cs).

(** The journal entry of an error a collaborator reported and the caller
    logged, if there was one. *)
Definition logged (err : option error) : list Call :=
  match err with
  | Some e => [session_logError e]
  | None => []
  end.

(** The logouts handed to the transport, each with the message it replies to. *)
Fixpoint sent (cs : list Call) : list (Message * Message) :=
  match cs with
  | [] => []
  | session_dropAndSendInReplyTo logout msg :: cs' => (logout, msg) :: sent cs'
  | _ :: cs' => sent cs'
  end.

(** How many times the target sequence counter was incremented. *)
Fixpoint increments (cs : list Call) : nat :=
  match cs with
  | [] => O
  | store_IncrNextTargetMsgSeqNum :: cs' => S (increments cs')
  | _ :: cs' => increments cs'
  end.

(** The values the sender sequence number was forced to. *)
Fixpoint forced (cs : list Call) : list Z :=
  match cs with
  | [] => []
  | session_forceNextSenderMsgSeqNum n :: cs' => n :: forced cs'
  | _ :: cs' => forced cs'
  end.

(** The application notifications. *)
Fixpoint notified (cs : list Call) : list SessionID :=
  match cs with
  | [] => []
  | application_InSession id :: cs' => id :: notified cs'
  | _ :: cs' => notified cs'
  end.

(** The two events of the Logout branch, as they appear in a journal. *)
Definition logout_event (msg : Message) : Call :=
  log_OnEventf "Invalid Session State: Received Logout %s while waiting for Logon"
               (ArgMessage msg).

Definition forcing_event (n : Z) : Call :=
  log_OnEventf "Forcing next sender message sequence number to %d" (ArgInt n).

(** Calls that only write to the log. *)
Definition is_log (c : Call) : bool :=
  match c with
  | log_OnEvent _ | log_OnEventf _ _ | session_logError _ => true
  | _ => false
  end.

(** ** A concrete session for examples

    Collaborators with a real pair of sequence counters, an outbox, and a
    scripted answer of the logon validation. *)

Module Fixture.

Record World := mkWorld {
  verdict : option error;
  nextSenderMsgSeqNum : Z;
  nextTargetMsgSeqNum : Z;
  outbox : list Message;
  ready : list SessionID
}.

#[export] Instance collaborators : Collaborators World := {|
  handleLogon := fun _ w => (verdict w, w);
  doTargetTooHigh := fun _ w => ((delegated "resendState", None), w);
  buildLogout := fun reason _ =>
    mkMessage {[ tagMsgType := msgTypeLogout ]} {[ tagText := reason ]};
  dropAndSendInReplyTo := fun logout _ w =>
    (None, mkWorld (verdict w) (nextSenderMsgSeqNum w) (nextTargetMsgSeqNum w)
                   (outbox w ++ [logout]) (ready w));
  IncrNextTargetMsgSeqNum := fun w =>
    (None, mkWorld (verdict w) (nextSenderMsgSeqNum w) (nextTargetMsgSeqNum w + 1)
                   (outbox w) (ready w));
  forceNextSenderMsgSeqNum := fun n w =>
    (None, mkWorld (verdict w) n (nextTargetMsgSeqNum w) (outbox w) (ready w));
  InSession := fun id w =>
    mkWorld (verdict w) (nextSenderMsgSeqNum w) (nextTargetMsgSeqNum w)
            (outbox w) (ready w ++ [id])
|}.

Definition id : SessionID := mkSessionID "FIX.4.2" "TW" "ISLD" "".

(** A session awaiting a logon, both counters at 2, whose logon validation
    answers [v]. *)
Definition awaiting (force : bool) (v : option error) : session World :=
  mkSession id force (mkWorld v 2 2 [] []) [].

Definition logon : Message := mkMessage {[ tagMsgType := msgTypeLogon ]} ∅.

Definition logout (reason : string) : Message :=
  mkMessage {[ tagMsgType := msgTypeLogout ]} {[ tagText := reason ]}.

Definition logout_no_text : Message :=
  mkMessage {[ tagMsgType := msgTypeLogout ]} ∅.

Definition heartbeat : Message := mkMessage {[ tagMsgType := "0" ]} ∅.

Definition no_type : Message := mkMessage ∅ {[ tagText := "hello" ]}.

(** Two answers of the logon validation. *)
Definition bad_credentials : error := RejectLogon "bad credentials".

Definition behind : error :=
  targetTooLow "MsgSeqNum too low, expecting 5 but received 2".

(** Two logout reasons that match the sequence-too-low pattern; the number
    of the second is one beyond the largest 64-bit [int]. *)
Definition expecting_42 : string :=
  "MsgSeqNum too low, expecting 42 but received 7".

Definition expecting_2_63 : string :=
  "MsgSeqNum too low, expecting 9223372036854775808 but received 7".

Definition two_63 : string := "9223372036854775808".

(** The error of a lookup of [tag] in a field map without it. *)
Definition missing (tag : Tag) : error :=
  fieldError tag "Conditionally Required Field Missing".

End Fixture.

(** ** A session whose transport, store and recovery fail *)

Module Faulty.

Record World := mkWorld {
  verdict : option error;
  attempts : nat
}.

Definition connection_reset : error := otherError "connection reset by peer".
Definition store_closed : error := otherError "store closed".
Definition resend_failed : error := otherError "resend request failed".

#[export] Instance collaborators : Collaborators World := {|
  handleLogon := fun _ w => (verdict w, w);
  doTargetTooHigh := fun _ w =>
    ((delegated "resendState", Some resend_failed),
     mkWorld (verdict w) (S (attempts w)));
  buildLogout := fun reason _ =>
    mkMessage {[ tagMsgType := msgTypeLogout ]} {[ tagText := reason ]};
  dropAndSendInReplyTo := fun _ _ w =>
    (Some connection_reset, mkWorld (verdict w) (S (attempts w)));
  IncrNextTargetMsgSeqNum := fun w =>
    (Some store_closed, mkWorld (verdict w) (S (attempts w)));
  forceNextSenderMsgSeqNum := fun _ w =>
    (Some store_closed, mkWorld (verdict w) (S (attempts w)));
  InSession := fun _ w => w
|}.

(** A session awaiting a logon whose validation answers [v]; [attempts]
    counts the calls that reached the failing collaborators. *)
Definition awaiting (v : option error) : session World :=
  mkSession Fixture.id true (mkWorld v 0) [].

End Faulty.

(** ** Statements about the handlers *)

Local Open Scope list_scope.

(** The message is of type [t]: its header carries MsgType [t]. *)
Definition has_type (msg : Message) (t : string) : Prop :=
  GetBytes (Header msg) tagMsgType = inl t.

(** The answer of the handler to a Logon that the validation refused with
    [verdict]: latent, one logout quoting the text of [verdict] in reply to
    [msg], and [n] increments of the target sequence counter. *)
Definition logon_refused {W} `{Collaborators W} (s : session W) (msg : Message)
           (verdict : error) (n : nat) : Prop :=
  forall w1,
    has_type msg msgTypeLogon ->
    handleLogon msg (world s) = (Some verdict, w1) ->
    exists s' calls,
      FixMsgIn msg s = (Returned latentState, s') /\
      journal s' = journal s ++ session_handleLogon msg :: calls /\
      sent calls = [(buildLogout (Error verdict) w1, msg)] /\
      increments calls = n.

(** The handler on a Logout whose reason matches the sequence-too-low
    pattern, with the force flag on: latent, the sender sequence number
    forced once to the number that group 1 denotes, and the forcing logged. *)
Definition logout_forces {W} `{Collaborators W} (s : session W) (msg : Message)
  : Prop :=
  forall reason res d,
    has_type msg msgTypeLogout ->
    GetString (Body msg) tagText = inl reason ->
    regexp.FindStringSubmatch msgSeqNumTooLowRegex reason = Some res ->
    LogonForceSenderMsgSeqNum s = true ->
    nth_error res 1 = Some d ->
    exists s' calls,
      FixMsgIn msg s = (Returned latentState, s') /\
      journal s' = journal s ++ calls /\
      forced calls = [decimal d] /\
      In (log_OnEventf "Forcing next sender message sequence number to %d"
                       (ArgInt (decimal d))) calls.

(** ** Further statements: the paths of the handler and its journal *)

(** No byte of [s] is [c]. *)
Fixpoint free_of (c : ascii) (s : string) : bool :=
  match s with
  | EmptyString => true
  | String a s' => negb (Ascii.eqb a c) && free_of c s'
  end.

(** [s] does not begin with a decimal digit. *)
Definition no_leading_digit (s : string) : bool :=
  match s with
  | EmptyString => true
  | String a _ => negb (is_digit a)
  end.

(** The calls of the shutdown helper, given what the transport ([e1]) and
    the store ([e2]) answered. *)
Definition shutdown_calls {W} `{Collaborators W} (msg : Message) (incr : bool)
           (reason : string) (w : W) (e1 e2 : option error) : list Call :=
  [log_OnEvent reason; session_dropAndSendInReplyTo (buildLogout reason w) msg]
    ++ logged e1
    ++ (if incr then store_IncrNextTargetMsgSeqNum :: logged e2 else []).

(** The flag the type switch of the handler passes to the shutdown helper. *)
Definition shutdown_flag (verdict : error) (incr : bool) : Prop :=
  match verdict with
  | RejectLogon _ => incr = true
  | targetTooLow _ => incr = false
  | _ => False
  end.

(** The errors of the logon validation that reach the [default] case. *)
Definition unclassified (verdict : error) : Prop :=
  match verdict with
  | RejectLogon _ | targetTooLow _ | targetTooHigh _ => False
  | _ => True
  end.

(** The paths through [FixMsgIn]: the next state, the state the collaborators
    are left in and the calls made, for each way the handler can go. *)
Inductive FixMsgIn_path {W} `{Collaborators W} (s : session W) (msg : Message)
  : sessionState -> W -> list Call -> Prop :=
| path_no_type err :
    GetBytes (Header msg) tagMsgType = inr err ->
    FixMsgIn_path s msg latentState (world s) [session_logError err]
| path_logout_no_text err :
    has_type msg msgTypeLogout ->
    GetString (Body msg) tagText = inr err ->
    FixMsgIn_path s msg latentState (world s)
                  [logout_event msg; session_logError err]
| path_logout_plain reason :
    has_type msg msgTypeLogout ->
    GetString (Body msg) tagText = inl reason ->
    regexp.FindStringSubmatch msgSeqNumTooLowRegex reason = None \/
    LogonForceSenderMsgSeqNum s = false ->
    FixMsgIn_path s msg latentState (world s) [logout_event msg]
| path_logout_overflow reason whole d v e :
    has_type msg msgTypeLogout ->
    GetString (Body msg) tagText = inl reason ->
    regexp.FindStringSubmatch msgSeqNumTooLowRegex reason = Some [whole; d] ->
    LogonForceSenderMsgSeqNum s = true ->
    strconv.Atoi d = (v, Some e) ->
    FixMsgIn_path s msg latentState (world s)
                  [logout_event msg; session_logError (numError e)]
| path_logout_forced reason whole d n e w' :
    has_type msg msgTypeLogout ->
    GetString (Body msg) tagText = inl reason ->
    regexp.FindStringSubmatch msgSeqNumTooLowRegex reason = Some [whole; d] ->
    LogonForceSenderMsgSeqNum s = true ->
    strconv.Atoi d = (n, None) ->
    forceNextSenderMsgSeqNum n (world s) = (e, w') ->
    FixMsgIn_path s msg latentState w'
                  ([logout_event msg; forcing_event n;
                    session_forceNextSenderMsgSeqNum n] ++ logged e)
| path_unexpected t :
    has_type msg t -> t <> msgTypeLogon -> t <> msgTypeLogout ->
    FixMsgIn_path s msg latentState (world s)
      [log_OnEventf "Invalid Session State: Received Msg %s while waiting for Logon"
                    (ArgMessage msg)]
| path_accepted w1 :
    has_type msg msgTypeLogon ->
    handleLogon msg (world s) = (None, w1) ->
    FixMsgIn_path s msg inSession (InSession (sessionID s) w1)
                  [session_handleLogon msg; application_InSession (sessionID s)]
| path_refused verdict incr w1 e1 w2 e2 w3 :
    has_type msg msgTypeLogon ->
    handleLogon msg (world s) = (Some verdict, w1) ->
    shutdown_flag verdict incr ->
    dropAndSendInReplyTo (buildLogout (Error verdict) w1) msg w1 = (e1, w2) ->
    (if incr then IncrNextTargetMsgSeqNum w2 else (None, w2)) = (e2, w3) ->
    FixMsgIn_path s msg latentState w3
                  (session_handleLogon msg
                     :: shutdown_calls msg incr (Error verdict) w1 e1 e2)
| path_too_high_recovered text w1 st w2 :
    has_type msg msgTypeLogon ->
    handleLogon msg (world s) = (Some (targetTooHigh text), w1) ->
    doTargetTooHigh (targetTooHigh text) w1 = ((st, None), w2) ->
    FixMsgIn_path s msg st w2
                  [session_handleLogon msg;
                   session_doTargetTooHigh (targetTooHigh text)]
| path_too_high_failed text w1 st tooHighErr w2 e1 w3 :
    has_type msg msgTypeLogon ->
    handleLogon msg (world s) = (Some (targetTooHigh text), w1) ->
    doTargetTooHigh (targetTooHigh text) w1 = ((st, Some tooHighErr), w2) ->
    dropAndSendInReplyTo (buildLogout (Error tooHighErr) w2) msg w2 = (e1, w3) ->
    FixMsgIn_path s msg latentState w3
                  ([session_handleLogon msg;
                    session_doTargetTooHigh (targetTooHigh text)]
                     ++ shutdown_calls msg false (Error tooHighErr) w2 e1 None)
| path_unclassified verdict w1 :
    has_type msg msgTypeLogon ->
    handleLogon msg (world s) = (Some verdict, w1) ->
    unclassified verdict ->
    FixMsgIn_path s msg latentState w1
                  [session_handleLogon msg; session_logError verdict].

(** The calls made between the session [s] and the later session [s']. *)
Definition since {W} (s s' : session W) : list Call :=
  skipn (length (journal s)) (journal s').

(** The messages handed to the logon validation. *)
Fixpoint validated (cs : list Call) : list Message :=
  match cs with
  | [] => []
  | session_handleLogon msg :: cs' => msg :: validated cs'
  | _ :: cs' => validated cs'
  end.

(** The errors written to the log with [logError]. *)
Fixpoint errors_logged (cs : list Call) : list error :=
  match cs with
  | [] => []
  | session_logError e :: cs' => e :: errors_logged cs'
  | _ :: cs' => errors_logged cs'
  end.

(** [bytes.Equal(msgType, t)] on the MsgType of [msg]; [false] without one. *)
Definition is_type (msg : Message) (t : string) : bool :=
  match GetBytes (Header msg) tagMsgType with
  | inl t' => bytes_Equal t' t
  | inr _ => false
  end.

(** The logouts the handler sends for [msg], read off the answers of the
    validation and of the too-high recovery. *)
Definition logouts_due {W} `{Collaborators W} (s : session W) (msg : Message)
  : list (Message * Message) :=
  if is_type msg msgTypeLogon then
    match handleLogon msg (world s) with
    | (Some (RejectLogon text), w1) | (Some (targetTooLow text), w1) =>
      [(buildLogout text w1, msg)]
    | (Some (targetTooHigh text), w1) =>
      match doTargetTooHigh (targetTooHigh text) w1 with
      | ((_, Some tooHighErr), w2) => [(buildLogout (Error tooHighErr) w2, msg)]
      | ((_, None), _) => []
      end
    | _ => []
    end
  else [].

(** ** Facts about the standard-library functions *)

Section Digits.

Lemma is_digit_range (c : ascii) :
  is_digit c = true -> 0 <= byte_val c - 48 <= 9.
Proof. unfold is_digit. intros Hd. apply andb_prop in Hd as [? ?]. lia. Qed.

Lemma is_digit_not (c d : ascii) :
  is_digit c = true -> is_digit d = false -> Ascii.eqb c d = false.
Proof.
  intros Hc Hd. destruct (Ascii.eqb_spec c d) as [->|]; [congruence|reflexivity].
Qed.

Lemma decimal_from_ge (s : string) : forall acc,
  all_digits s = true -> 0 <= acc -> acc <= decimal_from acc s.
Proof.
  induction s as [|c s IH]; intros acc Hs Hacc; cbn [decimal_from]; [lia|].
  cbn [all_digits] in Hs. apply andb_prop in Hs as [Hc Hs].
  apply is_digit_range in Hc.
  specialize (IH (acc * 10 + (byte_val c - 48)) Hs). lia.
Qed.

Lemma decimal_from_lt (s : string) : forall acc k,
  all_digits s = true -> 0 <= k -> 0 <= acc < 10 ^ k ->
  0 <= decimal_from acc s < 10 ^ (k + Z.of_nat (String.length s)).
Proof.
  induction s as [|c s IH]; intros acc k Hs Hk Hacc.
  - cbn [decimal_from String.length]. rewrite Z.add_0_r. exact Hacc.
  - cbn [all_digits] in Hs. apply andb_prop in Hs as [Hc Hs].
    apply is_digit_range in Hc. cbn [decimal_from String.length].
    replace (k + Z.of_nat (S (String.length s)))
      with ((k + 1) + Z.of_nat (String.length s)) by lia.
    apply IH; [exact Hs|lia|].
    rewrite Z.pow_add_r by lia. change (10 ^ 1) with 10. lia.
Qed.

End Digits.

Module strconv_facts.
Import strconv.

Lemma wrap_byte_digit (c : ascii) :
  is_digit c = true -> wrap_byte (byte_val c - 48) = byte_val c - 48.
Proof.
  intros Hc. apply is_digit_range in Hc. unfold wrap_byte.
  apply Z.mod_small. lia.
Qed.

Lemma wrap_int_small (x : Z) : - 2 ^ 63 <= x < 2 ^ 63 -> wrap_int x = x.
Proof.
  intros Hx. unfold wrap_int, intSize.
  change (64 - 1) with 63. rewrite Z.mod_small; lia.
Qed.

(** The fast path cannot overflow: at most 18 digits are read. *)
Lemma Atoi_fast_loop_digits (s : string) : forall n k,
  all_digits s = true -> 0 <= k -> 0 <= n < 10 ^ k ->
  k + Z.of_nat (String.length s) <= 18 ->
  Atoi_fast_loop s n = Some (decimal_from n s).
Proof.
  induction s as [|c s IH]; intros n k Hs Hk Hn Hlen; [reflexivity|].
  cbn [all_digits] in Hs. apply andb_prop in Hs as [Hc Hs].
  cbn [Atoi_fast_loop decimal_from]. rewrite (wrap_byte_digit c Hc).
  apply is_digit_range in Hc.
  destruct (Z.gtb_spec (byte_val c - 48) 9) as [?|_]; [lia|].
  cbn [String.length] in Hlen.
  assert (Hpow : 10 ^ (k + 1) <= 10 ^ 18)
    by (apply Z.pow_le_mono_r; lia).
  assert (Hstep : 0 <= n * 10 + (byte_val c - 48) < 10 ^ (k + 1)).
  { rewrite Z.pow_add_r by lia. change (10 ^ 1) with 10. lia. }
  rewrite wrap_int_small by (change (10 ^ 18) with 1000000000000000000 in Hpow;
                             change (2 ^ 63) with 9223372036854775808; lia).
  apply (IH _ (k + 1)); [exact Hs|lia|exact Hstep|lia].
Qed.

Lemma ParseUint_loop_digits (s0 s : string) : forall n,
  all_digits s = true -> 0 <= n <= maxUint64 ->
  ParseUint_loop s0 s n =
  if decimal_from n s <=? maxUint64 then (decimal_from n s, None)
  else (maxUint64, Some (rangeError "ParseUint" s0)).
Proof.
  unfold maxUint64. change (2 ^ 64 - 1) with 18446744073709551615.
  induction s as [|c s IH]; intros n Hs Hn.
  - cbn [ParseUint_loop decimal_from].
    destruct (Z.leb_spec n 18446744073709551615); [reflexivity|lia].
  - cbn [all_digits] in Hs. apply andb_prop in Hs as [Hc Hs].
    cbn [ParseUint_loop decimal_from]. rewrite Hc, (wrap_byte_digit c Hc).
    pose proof (is_digit_range c Hc) as Hd.
    pose proof (decimal_from_ge s (n * 10 + (byte_val c - 48)) Hs) as Hge.
    unfold maxUint64, wrap_uint64.
    change (2 ^ 64 - 1) with 18446744073709551615.
    change (2 ^ 64) with 18446744073709551616.
    change (18446744073709551615 / 10 + 1) with 1844674407370955162.
    change (18446744073709551615 mod 18446744073709551616)
      with 18446744073709551615.
    destruct (Z.geb_spec n 1844674407370955162) as [Hcut|Hcut].
    + destruct (Z.leb_spec (decimal_from (n * 10 + (byte_val c - 48)) s)
                           18446744073709551615); [lia|reflexivity].
    + rewrite (Z.mod_small (n * 10)) by lia.
      destruct (Z_lt_ge_dec (n * 10 + (byte_val c - 48)) 18446744073709551616)
        as [Hfit|Hover].
      * rewrite (Z.mod_small (n * 10 + _)) by lia.
        destruct (Z.ltb_spec (n * 10 + (byte_val c - 48)) (n * 10)); [lia|].
        destruct (Z.gtb_spec (n * 10 + (byte_val c - 48)) 18446744073709551615);
          [lia|].
        cbn [orb]. apply IH; [exact Hs|lia].
      * replace ((n * 10 + (byte_val c - 48)) mod 18446744073709551616)
          with (n * 10 + (byte_val c - 48) - 18446744073709551616).
        2:{ apply Z.mod_unique with (q := 1); lia. }
        destruct (Z.ltb_spec (n * 10 + (byte_val c - 48) - 18446744073709551616)
                             (n * 10)); [|lia].
        cbn [orb].
        destruct (Z.leb_spec (decimal_from (n * 10 + (byte_val c - 48)) s)
                             18446744073709551615); [lia|reflexivity].
Qed.

Lemma ParseInt_digits (d : string) :
  d <> EmptyString -> all_digits d = true ->
  ParseInt d =
  if decimal d <=? maxInt then (decimal d, None)
  else (maxInt, Some (rangeError "ParseInt" d)).
Proof.
  intros Hne Hd. destruct d as [|c0 rest]; [congruence|].
  pose proof Hd as Hd'. cbn [all_digits] in Hd'.
  apply andb_prop in Hd' as [Hc0 _].
  unfold ParseInt.
  rewrite (is_digit_not c0 "+" Hc0 eq_refl), (is_digit_not c0 "-" Hc0 eq_refl).
  unfold ParseUint.
  rewrite (ParseUint_loop_digits _ _ 0 Hd) by (unfold maxUint64; lia).
  fold (decimal (String c0 rest)).
  pose proof (decimal_from_ge (String c0 rest) 0 Hd) as Hge.
  fold (decimal (String c0 rest)) in Hge.
  generalize dependent (decimal (String c0 rest)). intros v Hge.
  unfold maxUint64, maxInt, intSize, wrap_uint64.
  change (64 - 1) with 63.
  change (2 ^ 64 - 1) with 18446744073709551615.
  change (2 ^ 63 - 1) with 9223372036854775807.
  change (2 ^ 63 mod 2 ^ 64) with 9223372036854775808.
  destruct (Z.leb_spec v 18446744073709551615) as [Hfit|Hover].
  - cbn [negb andb Err].
    destruct (Z.geb_spec v 9223372036854775808) as [Hbig|Hsmall];
      destruct (Z.leb_spec v 9223372036854775807); try lia; [reflexivity|].
    rewrite wrap_int_small
      by (change (2 ^ 63) with 9223372036854775808; lia).
    reflexivity.
  - cbn [negb andb Err rangeError].
    destruct (Z.leb_spec v 9223372036854775807); [lia|]. reflexivity.
Qed.

(** [Atoi] on a non-empty string of decimal digits: the number it denotes
    when that fits [int], a range error otherwise. *)
Lemma Atoi_digits (d : string) :
  d <> EmptyString -> all_digits d = true ->
  Atoi d =
  if decimal d <=? maxInt then (decimal d, None)
  else (maxInt, Some (rangeError "Atoi" d)).
Proof.
  intros Hne Hd. unfold Atoi.
  destruct ((0 <? Z.of_nat (String.length d)) &&
            (Z.of_nat (String.length d) <? 19)) eqn:Hfast.
  - destruct d as [|c0 rest]; [congruence|].
    pose proof Hd as Hd'. cbn [all_digits] in Hd'.
    apply andb_prop in Hd' as [Hc0 _].
    rewrite (is_digit_not c0 "+" Hc0 eq_refl), (is_digit_not c0 "-" Hc0 eq_refl).
    cbn [orb andb].
    apply andb_prop in Hfast as [_ Hlen]. apply Z.ltb_lt in Hlen.
    rewrite (Atoi_fast_loop_digits _ 0 0 Hd) by (try rewrite Z.pow_0_r; lia).
    fold (decimal (String c0 rest)).
    pose proof (decimal_from_lt (String c0 rest) 0 0 Hd) as Hlt.
    fold (decimal (String c0 rest)) in Hlt.
    assert (Hpow : 10 ^ (0 + Z.of_nat (String.length (String c0 rest))) <= 10 ^ 18)
      by (apply Z.pow_le_mono_r; lia).
    unfold maxInt, intSize. change (2 ^ (64 - 1) - 1) with 9223372036854775807.
    change (10 ^ 18) with 1000000000000000000 in Hpow.
    destruct (Z.leb_spec (decimal (String c0 rest)) 9223372036854775807);
      [reflexivity|].
    rewrite Z.pow_0_r in Hlt. lia.
  - rewrite (ParseInt_digits d Hne Hd).
    destruct (decimal d <=? maxInt) eqn:Hfit.
    + apply Z.leb_le in Hfit.
      pose proof (decimal_from_ge d 0 Hd) as Hge. fold (decimal d) in Hge.
      unfold maxInt, intSize in Hfit.
      change (2 ^ (64 - 1) - 1) with 9223372036854775807 in Hfit.
      rewrite wrap_int_small
        by (change (2 ^ 63) with 9223372036854775808; lia).
      reflexivity.
    + reflexivity.
Qed.

End strconv_facts.

Module regexp_facts.
Import regexp.

Lemma substring_digits (s : string) : forall a n,
  digits_between s a (a + n) ->
  all_digits (String.substring a n s) = true /\
  String.length (String.substring a n s) = n.
Proof.
  induction s as [|c s IH]; intros a n Hd.
  - destruct n as [|n].
    + destruct a; split; reflexivity.
    + destruct (Hd a ltac:(lia)) as (ch & Hget & _).
      destruct a; discriminate Hget.
  - destruct a as [|a].
    + destruct n as [|n]; [split; reflexivity|].
      destruct (Hd O ltac:(lia)) as (ch & Hget & Hch).
      cbn [String.get] in Hget. injection Hget as <-.
      destruct (IH O n) as [Hall Hlen].
      { intros i Hi. destruct (Hd (S i) ltac:(lia)) as (ch & Hg & Hc).
        exists ch. split; [exact Hg|exact Hc]. }
      cbn [String.substring all_digits String.length].
      rewrite Hch, Hall, Hlen. split; reflexivity.
    + cbn [String.substring]. apply IH.
      intros i Hi. destruct (Hd (S i) ltac:(lia)) as (ch & Hg & Hc).
      exists ch. split; [exact Hg|exact Hc].
Qed.

Section Steps.
Context {R : Type}.
Implicit Types (k : nat -> caps -> option R) (c : caps).

Lemma step_Lit (l s : string) (p : nat) c k (r : R) :
step (Lit l) s p c k = Some r ->
k (p + String.length l)%nat c = Some r.
Proof. cbn [step]. destruct (lit_at l s p); [trivial|discriminate]. Qed.

Lemma step_Digit (s : string) (p : nat) c k (r : R) :
step Digit s p c k = Some r ->
exists ch, String.get p s = Some ch /\ is_digit ch = true /\
           k (S p) c = Some r.
Proof.
cbn [step]. destruct (String.get p s) as [ch|]; [|discriminate].
destruct (is_digit ch) eqn:Hch; [|discriminate].
intros Hk. exists ch. split; [reflexivity|]. split; [exact Hch|exact Hk].
Qed.

(** Iterating a body that reads one digit reads a non-empty run of them. *)
Lemma iterate_one_digit (s : string) body c k (fuel : nat) :
(forall p k' (r : R), body p c k' = Some r ->
   exists ch, String.get p s = Some ch /\ is_digit ch = true /\
              k' (S p) c = Some r) ->
forall p (r : R),
  iterate body k fuel p c = Some r ->
  exists q, (p < q)%nat /\ digits_between s p q /\ k q c = Some r.
Proof.
intros Hbody.
induction fuel as [|fuel IH]; intros p r Hrun; [discriminate Hrun|].
cbn [iterate] in Hrun.
apply Hbody in Hrun as (ch & Hget & Hch & Hrun).
destruct (iterate body k fuel (S p) c) as [x|] eqn:Hmore.
- injection Hrun as ->. destruct (IH (S p) r Hmore) as (q & Hlt & Hd & Hk).
  exists q. split; [lia|]. split; [|exact Hk].
  intros i Hi. destruct (Nat.eq_dec i p) as [->|Hne].
  + exists ch. split; [exact Hget|exact Hch].
  + apply Hd. lia.
- exists (S p). split; [lia|]. split; [|exact Hrun].
  intros i Hi. assert (i = p) as -> by lia.
  exists ch. split; [exact Hget|exact Hch].
Qed.

(** A successful [\d+] consumed a non-empty run of digits before its
  continuation succeeded. *)
Lemma step_Plus_Digit (s : string) (p : nat) c k (r : R) :
step (Plus Digit) s p c k = Some r ->
exists q, (p < q)%nat /\ digits_between s p q /\ k q c = Some r.
Proof.
cbn [step]. apply iterate_one_digit. intros p' k' r'. apply step_Digit.
Qed.
End Steps.

Lemma search_match_at (re : Regexp) (s : string) (fuel : nat) :
  forall p a b c,
    search re s fuel p = Some (a, b, c) -> match_at re s a = Some (b, c).
Proof.
  induction fuel as [|fuel IH]; intros p a b c Hs; [discriminate|].
  cbn [search] in Hs. destruct (match_at re s p) as [[q c']|] eqn:Hm.
  - injection Hs as <- <- <-. exact Hm.
  - exact (IH _ _ _ _ Hs).
Qed.

Lemma step_Cat {R} (r1 r2 : Regexp) (s : string) (p : nat) (c : caps)
      (k : nat -> caps -> option R) :
  step (Cat r1 r2) s p c k = step r1 s p c (fun q c' => step r2 s q c' k).
Proof. reflexivity. Qed.

Lemma step_Capture {R} (i : nat) (r : Regexp) (s : string) (p : nat) (c : caps)
      (k : nat -> caps -> option R) :
  step (Capture i r) s p c k =
  step r s p c (fun q c' => k q (<[i := (p, q)]> c')).
Proof. reflexivity. Qed.

(** A match of the sequence-too-low pattern records group 1, and group 1
    is a non-empty run of digits. *)
Lemma tooLow_match_at (s : string) (p q : nat) (c : caps) :
  match_at msgSeqNumTooLowRegex s p = Some (q, c) ->
  exists a b, c !! 1%nat = Some (a, b) /\ (a < b)%nat /\ digits_between s a b.
Proof.
  unfold match_at, msgSeqNumTooLowRegex. intros Hm.
  rewrite step_Cat in Hm. apply step_Lit in Hm.
  rewrite step_Cat, step_Capture in Hm.
  apply step_Plus_Digit in Hm as (b & Hlt & Hdig & Hm).
  rewrite step_Cat in Hm. apply step_Lit in Hm.
  apply step_Plus_Digit in Hm as (e & _ & _ & Hm).
  injection Hm as _ <-.
  eexists; exists b. rewrite lookup_insert_eq.
  split; [reflexivity|]. split; [exact Hlt|exact Hdig].
Qed.

(** What [FindStringSubmatch] returns for the sequence-too-low pattern:
    [nil], or the match and the digits of group 1. *)
Lemma FindStringSubmatch_tooLow (reason : string) (res : list string) :
  FindStringSubmatch msgSeqNumTooLowRegex reason = Some res ->
  exists whole d,
    res = [whole; d] /\ d <> EmptyString /\ all_digits d = true.
Proof.
  unfold FindStringSubmatch.
  destruct (search _ reason _ _) as [[[p q] c]|] eqn:Hs; [|discriminate].
  intros Hres. injection Hres as <-.
  apply search_match_at, tooLow_match_at in Hs as (a & b & Hc & Hlt & Hdig).
  change (NumSubexp msgSeqNumTooLowRegex) with 1%nat.
  cbn [seq map]. rewrite Hc.
  eexists; eexists. split; [reflexivity|].
  destruct (substring_digits reason a (b - a)) as [Hall Hlen].
  { replace (a + (b - a))%nat with b by lia. exact Hdig. }
  unfold slice. split; [|exact Hall].
  intros Hempty. rewrite Hempty in Hlen. cbn [String.length] in Hlen. lia.
Qed.

Lemma occurs_at_head (t rest : string) : occurs_at t (t ++ rest) 0.
Proof.
  intros i Hi. cbn [Nat.add]. symmetry. apply append_correct1. exact Hi.
Qed.

Lemma occurs_at_skip (t pre s : string) (p : nat) :
  occurs_at t s p -> occurs_at t (pre ++ s) (String.length pre + p).
Proof.
  intros Ht i Hi. rewrite <- (Ht i Hi).
  replace (String.length pre + p + i)%nat with ((p + i) + String.length pre)%nat
    by lia.
  symmetry. apply append_correct2.
Qed.

Lemma get_Some_lt (s : string) : forall i ch,
  String.get i s = Some ch -> (i < String.length s)%nat.
Proof.
  induction s as [|a s IH]; intros i ch Hget; [discriminate Hget|].
  destruct i as [|i]; cbn [String.length]; [lia|].
  cbn [String.get] in Hget. apply IH in Hget. lia.
Qed.

Lemma all_digits_get (d : string) : forall i,
  all_digits d = true -> (i < String.length d)%nat ->
  exists ch, String.get i d = Some ch /\ is_digit ch = true.
Proof.
  induction d as [|a d IH]; intros i Hd Hi; [cbn in Hi; lia|].
  cbn [all_digits] in Hd. apply andb_prop in Hd as [Ha Hd].
  destruct i as [|i].
  - exists a. split; [reflexivity|exact Ha].
  - cbn [String.length] in Hi. apply (IH i Hd). lia.
Qed.

Lemma lit_at_occurs (l s : string) : forall p,
  occurs_at l s p -> lit_at l s p = true.
Proof.
  induction l as [|a l IH]; intros p Hl; [reflexivity|].
  cbn [lit_at]. pose proof (Hl O ltac:(cbn; lia)) as H0.
  rewrite Nat.add_0_r in H0. rewrite H0. cbn [String.get].
  rewrite Ascii.eqb_refl. cbn [andb]. apply IH.
  intros i Hi. replace (S p + i)%nat with (p + S i)%nat by lia.
  apply (Hl (S i)). cbn [String.length]. lia.
Qed.

Section Finds.
Context {R : Type}.

(** Over a run of [n] digits after which the continuation succeeds, the
    repetition succeeds: the fuel is enough. *)
Lemma iterate_run (s : string) body (c : caps) (k : nat -> caps -> option R) :
  (forall p k' ch, String.get p s = Some ch -> is_digit ch = true ->
                   body p c k' = k' (S p) c) ->
  forall n p fuel,
    (n < fuel)%nat ->
    (forall i, (i <= n)%nat ->
               exists ch, String.get (p + i) s = Some ch /\ is_digit ch = true) ->
    is_Some (k (p + S n)%nat c) ->
    is_Some (iterate body k fuel p c).
Proof.
  intros Hbody. induction n as [|n IH]; intros p fuel Hfuel Hrun Hk.
  - destruct fuel as [|fuel]; [lia|]. cbn [iterate].
    destruct (Hrun O ltac:(lia)) as (ch & Hget & Hch).
    rewrite Nat.add_0_r in Hget. rewrite (Hbody _ _ _ Hget Hch).
    destruct (iterate body k fuel (S p) c); [eexists; reflexivity|].
    replace (S p) with (p + 1)%nat by lia. exact Hk.
  - destruct fuel as [|fuel]; [lia|]. cbn [iterate].
    destruct (Hrun O ltac:(lia)) as (ch & Hget & Hch).
    rewrite Nat.add_0_r in Hget. rewrite (Hbody _ _ _ Hget Hch).
    destruct (IH (S p) fuel ltac:(lia)) as [x Hx].
    + intros i Hi. destruct (Hrun (S i) ltac:(lia)) as (ch' & Hg & Hc).
      exists ch'. split; [|exact Hc].
      replace (S p + i)%nat with (p + S i)%nat by lia. exact Hg.
    + replace (S p + S n)%nat with (p + S (S n))%nat by lia. exact Hk.
    + rewrite Hx. eexists; reflexivity.
Qed.

Lemma step_Plus_Digit_run (s d : string) (p : nat) (c : caps)
      (k : nat -> caps -> option R) :
  d <> EmptyString -> all_digits d = true -> occurs_at d s p ->
  is_Some (k (p + String.length d)%nat c) ->
  is_Some (step (Plus Digit) s p c k).
Proof.
  intros Hne Hd Hocc Hk.
  destruct d as [|a d']; [congruence|].
  set (d := String a d') in *.
  assert (Hlen : String.length d = S (String.length d')) by reflexivity.
  assert (Hrun : forall i, (i <= String.length d')%nat ->
                 exists ch, String.get (p + i) s = Some ch /\ is_digit ch = true).
  { intros i Hi. rewrite (Hocc i) by lia. apply all_digits_get; [exact Hd|lia]. }
  cbn [step].
  apply (iterate_run s _ c k) with (n := String.length d').
  - intros p' k' ch Hget Hch. cbn [step]. rewrite Hget, Hch. reflexivity.
  - destruct (Hrun (String.length d') ltac:(lia)) as (ch & Hget & _).
    apply get_Some_lt in Hget. lia.
  - exact Hrun.
  - rewrite <- Hlen. exact Hk.
Qed.
End Finds.

Lemma search_finds (re : Regexp) (s : string) (fuel : nat) : forall p a,
  (p <= a < p + fuel)%nat ->
  is_Some (match_at re s a) -> is_Some (search re s fuel p).
Proof.
  induction fuel as [|fuel IH]; intros p a Ha Hm; [lia|].
  cbn [search]. destruct (match_at re s p) as [[q c]|] eqn:Hp.
  - eexists; reflexivity.
  - apply (IH (S p) a); [|exact Hm].
    destruct (Nat.eq_dec a p) as [->|Hne]; [|lia].
    rewrite Hp in Hm. destruct Hm as [x Hx]. discriminate Hx.
Qed.

(** X13: The model finds a match in every reason that contains the text of the
    pattern: the fuel of the search and of the repetitions is enough. *)
Lemma FindStringSubmatch_finds (pre n m post : string) :
  n <> EmptyString -> all_digits n = true ->
  m <> EmptyString -> all_digits m = true ->
  is_Some (FindStringSubmatch msgSeqNumTooLowRegex
             (pre ++ "MsgSeqNum too low, expecting " ++ n ++
              " but received " ++ m ++ post)).
Proof.
  intros Hn Hnd Hm Hmd.
  set (lit1 := "MsgSeqNum too low, expecting ").
  set (lit2 := " but received ").
  set (s := (pre ++ lit1 ++ n ++ lit2 ++ m ++ post)%string).
  assert (H1 : occurs_at lit1 s (String.length pre)).
  { replace (String.length pre) with (String.length pre + 0)%nat by lia.
    apply occurs_at_skip, occurs_at_head. }
  assert (H2 : occurs_at n s (String.length pre + String.length lit1)).
  { replace (String.length pre + String.length lit1)%nat
      with (String.length pre + (String.length lit1 + 0))%nat by lia.
    apply occurs_at_skip, occurs_at_skip, occurs_at_head. }
  assert (H3 : occurs_at lit2 s
                 (String.length pre + String.length lit1 + String.length n)).
  { replace (String.length pre + String.length lit1 + String.length n)%nat
      with (String.length pre + (String.length lit1 + (String.length n + 0)))%nat
      by lia.
    apply occurs_at_skip, occurs_at_skip, occurs_at_skip, occurs_at_head. }
  assert (H4 : occurs_at m s
                 (String.length pre + String.length lit1 + String.length n
                  + String.length lit2)).
  { replace (String.length pre + String.length lit1 + String.length n
             + String.length lit2)%nat
      with (String.length pre + (String.length lit1 + (String.length n
             + (String.length lit2 + 0))))%nat by lia.
    apply occurs_at_skip, occurs_at_skip, occurs_at_skip, occurs_at_skip,
      occurs_at_head. }
  assert (Hmatch : is_Some (match_at msgSeqNumTooLowRegex s (String.length pre))).
  { unfold match_at, msgSeqNumTooLowRegex. fold lit1 lit2.
    rewrite step_Cat. cbn [step].
    rewrite (lit_at_occurs _ _ _ H1).
    change (is_Some (step (Plus Digit) s (String.length pre + String.length lit1) ∅
              (fun q c' =>
                 step (Cat (Lit lit2) (Plus Digit)) s q
                      (<[1%nat := ((String.length pre + String.length lit1)%nat, q)]> c')
                      (fun q c => Some (q, c))))).
    apply (step_Plus_Digit_run s n); [exact Hn|exact Hnd|exact H2|].
    rewrite step_Cat. cbn [step].
    rewrite (lit_at_occurs _ _ _ H3).
    match goal with
    | |- is_Some (iterate ?b ?k ?f ?p ?c) =>
      change (is_Some (step (Plus Digit) s p c k))
    end.
    apply (step_Plus_Digit_run s m); [exact Hm|exact Hmd|exact H4|].
    eexists; reflexivity. }
  assert (Hpos : (String.length pre < String.length s)%nat).
  { pose proof (H1 O ltac:(cbn; lia)) as Hget. cbn [String.get lit1] in Hget.
    apply get_Some_lt in Hget. lia. }
  destruct (search_finds msgSeqNumTooLowRegex s (S (String.length s)) 0
              (String.length pre) ltac:(lia) Hmatch) as [[[a b] c] Hs].
  unfold FindStringSubmatch. fold s. rewrite Hs. eexists; reflexivity.
Qed.

End regexp_facts.

Module regexp_exact.
Import regexp regexp_facts.
Local Open Scope string_scope.

Lemma free_of_get (c : ascii) (s : string) :
  free_of c s = true -> forall i, String.get i s <> Some c.
Proof.
  induction s as [|a s IH]; intros Hfree i; [destruct i; discriminate|].
  cbn [free_of] in Hfree. apply andb_prop in Hfree as [Ha Hfree].
  destruct i as [|i]; [|exact (IH Hfree i)].
  cbn [String.get]. intros Heq. injection Heq as ->.
  rewrite Ascii.eqb_refl in Ha. discriminate Ha.
Qed.

Lemma no_leading_digit_get (s : string) (ch : ascii) :
  no_leading_digit s = true -> String.get 0 s = Some ch -> is_digit ch = false.
Proof.
  destruct s as [|a s]; [discriminate|].
  cbn [no_leading_digit String.get]. intros Ha Heq. injection Heq as <-.
  destruct (is_digit a); [discriminate Ha|reflexivity].
Qed.

Lemma length_append (a b : string) :
  String.length (a ++ b) = (String.length a + String.length b)%nat.
Proof.
  induction a as [|c a IH]; [reflexivity|].
  change (S (String.length (a ++ b)) = S (String.length a + String.length b)).
  rewrite IH. reflexivity.
Qed.

Lemma append_assoc_string (a b c : string) : ((a ++ b) ++ c = a ++ b ++ c)%string.
Proof.
  induction a as [|x a IH]; [reflexivity|].
  change (String x ((a ++ b) ++ c) = String x (a ++ b ++ c))%string.
  f_equal. exact IH.
Qed.

Lemma step_Lit_occurs {R} (l s : string) (p : nat) (c : caps)
      (k : nat -> caps -> option R) :
  occurs_at l s p -> step (Lit l) s p c k = k (p + String.length l)%nat c.
Proof. intros Hl. cbn [step]. rewrite (lit_at_occurs l s p Hl). reflexivity. Qed.

Lemma get_skip (pre s : string) (i : nat) :
  String.get (String.length pre + i) (pre ++ s) = String.get i s.
Proof.
  rewrite Nat.add_comm. symmetry. apply append_correct2.
Qed.

Lemma substring_skip (pre s : string) (a n : nat) :
  String.substring (String.length pre + a) n (pre ++ s) = String.substring a n s.
Proof. induction pre as [|c pre IH]; [reflexivity|exact IH]. Qed.

Lemma substring_head (t rest : string) :
  String.substring 0 (String.length t) (t ++ rest) = t.
Proof.
  induction t as [|c t IH].
  - change (String.substring 0 0 rest = EmptyString). destruct rest; reflexivity.
  - change (String c (String.substring 0 (String.length t) (t ++ rest))
            = String c t).
    rewrite IH. reflexivity.
Qed.

Section Greedy.
Context {R : Type}.

(** Over a run of digits that ends before a byte that is no digit, the
    repetition takes the whole run when the continuation succeeds there. *)
Lemma iterate_greedy (s : string) body (c : caps) (k : nat -> caps -> option R) :
  (forall p k' ch, String.get p s = Some ch -> is_digit ch = true ->
                   body p c k' = k' (S p) c) ->
  (forall p k', (forall ch, String.get p s = Some ch -> is_digit ch = false) ->
                body p c k' = None) ->
  forall n p fuel,
    (n < fuel)%nat ->
    (forall i, (i <= n)%nat ->
               exists ch, String.get (p + i) s = Some ch /\ is_digit ch = true) ->
    (forall ch, String.get (p + S n) s = Some ch -> is_digit ch = false) ->
    is_Some (k (p + S n)%nat c) ->
    iterate body k fuel p c = k (p + S n)%nat c.
Proof.
  intros Hok Hfail. induction n as [|n IH]; intros p fuel Hfuel Hrun Hend Hk.
  - destruct fuel as [|fuel]; [lia|]. cbn [iterate].
    destruct (Hrun O ltac:(lia)) as (ch & Hget & Hch).
    rewrite Nat.add_0_r in Hget. rewrite (Hok _ _ _ Hget Hch).
    replace (p + 1)%nat with (S p) in * by lia.
    destruct fuel as [|fuel]; [reflexivity|]. cbn [iterate].
    rewrite (Hfail (S p) _ Hend). reflexivity.
  - destruct fuel as [|fuel]; [lia|]. cbn [iterate].
    destruct (Hrun O ltac:(lia)) as (ch & Hget & Hch).
    rewrite Nat.add_0_r in Hget. rewrite (Hok _ _ _ Hget Hch).
    replace (p + S (S n))%nat with (S p + S n)%nat in * by lia.
    rewrite (IH (S p) fuel ltac:(lia)); [| |exact Hend|exact Hk].
    + destruct Hk as [x Hx]. rewrite Hx. reflexivity.
    + intros i Hi. destruct (Hrun (S i) ltac:(lia)) as (ch' & Hg & Hc).
      exists ch'. split; [|exact Hc].
      replace (S p + i)%nat with (p + S i)%nat by lia. exact Hg.
Qed.

Lemma step_Plus_Digit_greedy (s d : string) (p : nat) (c : caps)
      (k : nat -> caps -> option R) :
  d <> EmptyString -> all_digits d = true -> occurs_at d s p ->
  (forall ch, String.get (p + String.length d) s = Some ch -> is_digit ch = false) ->
  is_Some (k (p + String.length d)%nat c) ->
  step (Plus Digit) s p c k = k (p + String.length d)%nat c.
Proof.
  intros Hne Hd Hocc Hend Hk.
  destruct d as [|a d']; [congruence|].
  set (d := String a d') in *.
  assert (Hlen : String.length d = S (String.length d')) by reflexivity.
  assert (Hrun : forall i, (i <= String.length d')%nat ->
                 exists ch, String.get (p + i) s = Some ch /\ is_digit ch = true).
  { intros i Hi. rewrite (Hocc i) by lia. apply all_digits_get; [exact Hd|lia]. }
  rewrite Hlen in *. cbn [step].
  apply (iterate_greedy s _ c k).
  - intros p' k' ch Hget Hch. cbn [step]. rewrite Hget, Hch. reflexivity.
  - intros p' k' Hno. cbn [step].
    destruct (String.get p' s) as [ch|]; [|reflexivity].
    rewrite (Hno ch eq_refl). reflexivity.
  - destruct (Hrun (String.length d') ltac:(lia)) as (ch & Hget & _).
    apply get_Some_lt in Hget. lia.
  - exact Hrun.
  - exact Hend.
  - exact Hk.
Qed.
End Greedy.

Lemma search_first (re : Regexp) (s : string) (fuel : nat) : forall p a q c,
  (p <= a < p + fuel)%nat ->
  (forall a', (p <= a' < a)%nat -> match_at re s a' = None) ->
  match_at re s a = Some (q, c) ->
  search re s fuel p = Some (a, q, c).
Proof.
  induction fuel as [|fuel IH]; intros p a q c Ha Hnone Hm; [lia|].
  cbn [search]. destruct (Nat.eq_dec a p) as [->|Hne].
  - rewrite Hm. reflexivity.
  - rewrite (Hnone p) by lia. apply IH; [lia| |exact Hm].
    intros a' Ha'. apply Hnone. lia.
Qed.

(** No match of the pattern starts at a byte other than [M]. *)
Lemma match_at_needs_M (s : string) (a : nat) :
  String.get a s <> Some "M"%char ->
  match_at msgSeqNumTooLowRegex s a = None.
Proof.
  intros Hno. unfold match_at, msgSeqNumTooLowRegex.
  rewrite step_Cat. cbn [step lit_at].
  destruct (String.get a s) as [b|]; [|reflexivity].
  destruct (Ascii.eqb_spec "M" b) as [<-|_]; [congruence|reflexivity].
Qed.

(** X12: The pattern takes the first occurrence of its text: in a reason whose
    part before the text has no [M], and in which the second number is not
    followed by a further digit, the match is the text and group 1 is the
    first number. *)
Theorem FindStringSubmatch_extracts (pre n m post : string) :
  free_of "M" pre = true ->
  n <> EmptyString -> all_digits n = true ->
  m <> EmptyString -> all_digits m = true ->
  no_leading_digit post = true ->
  FindStringSubmatch msgSeqNumTooLowRegex
    (pre ++ "MsgSeqNum too low, expecting " ++ n ++ " but received " ++ m ++ post)
  = Some ["MsgSeqNum too low, expecting " ++ n ++ " but received " ++ m; n].
Proof.
  intros Hpre Hn Hnd Hm Hmd Hpost.
  set (lit1 := "MsgSeqNum too low, expecting ").
  set (lit2 := " but received ").
  set (s := pre ++ lit1 ++ n ++ lit2 ++ m ++ post).
  set (p0 := String.length pre).
  set (p1 := (p0 + String.length lit1)%nat).
  set (p2 := (p1 + String.length n)%nat).
  set (p3 := (p2 + String.length lit2)%nat).
  set (p4 := (p3 + String.length m)%nat).
  assert (H1 : occurs_at lit1 s p0).
  { replace p0 with (String.length pre + 0)%nat by (unfold p0; lia).
    apply occurs_at_skip, occurs_at_head. }
  assert (H2 : occurs_at n s p1).
  { replace p1 with (String.length pre + (String.length lit1 + 0))%nat
      by (unfold p1, p0; lia).
    apply occurs_at_skip, occurs_at_skip, occurs_at_head. }
  assert (H3 : occurs_at lit2 s p2).
  { replace p2
      with (String.length pre + (String.length lit1 + (String.length n + 0)))%nat
      by (unfold p2, p1, p0; lia).
    apply occurs_at_skip, occurs_at_skip, occurs_at_skip, occurs_at_head. }
  assert (H4 : occurs_at m s p3).
  { replace p3
      with (String.length pre + (String.length lit1 + (String.length n
             + (String.length lit2 + 0))))%nat by (unfold p3, p2, p1, p0; lia).
    apply occurs_at_skip, occurs_at_skip, occurs_at_skip, occurs_at_skip,
      occurs_at_head. }
  assert (Hend_n : forall ch, String.get (p1 + String.length n) s = Some ch ->
                              is_digit ch = false).
  { intros ch Hget. fold p2 in Hget.
    pose proof (H3 O ltac:(cbn; lia)) as Hsp. rewrite Nat.add_0_r in Hsp.
    rewrite Hsp in Hget. injection Hget as <-. reflexivity. }
  assert (Hend_m : forall ch, String.get (p3 + String.length m) s = Some ch ->
                              is_digit ch = false).
  { intros ch Hget. apply (no_leading_digit_get post ch Hpost).
    rewrite <- Hget. unfold s, p3, p2, p1, p0.
    replace (String.length pre + String.length lit1 + String.length n
             + String.length lit2 + String.length m)%nat
      with (String.length pre + (String.length lit1 + (String.length n
             + (String.length lit2 + (String.length m + 0)))))%nat by lia.
    rewrite !get_skip. reflexivity. }
  assert (Hmatch : match_at msgSeqNumTooLowRegex s p0
                   = Some (p4, <[1%nat := (p1, p2)]> ∅)).
  { unfold match_at, msgSeqNumTooLowRegex. fold lit1 lit2.
    rewrite step_Cat, step_Lit_occurs by exact H1. fold p1.
    rewrite step_Cat, step_Capture.
    rewrite (step_Plus_Digit_greedy s n p1) by
      (try assumption; fold p2; rewrite step_Cat, step_Lit_occurs by exact H3;
       fold p3; rewrite (step_Plus_Digit_greedy s m p3) by
         (try assumption; eexists; reflexivity); eexists; reflexivity).
    fold p2. rewrite step_Cat, step_Lit_occurs by exact H3. fold p3.
    rewrite (step_Plus_Digit_greedy s m p3) by
      (try assumption; eexists; reflexivity).
    reflexivity. }
  assert (Hlen : String.length s = (p4 + String.length post)%nat).
  { unfold s, p4, p3, p2, p1, p0. rewrite !length_append. lia. }
  unfold FindStringSubmatch. fold s.
  rewrite (search_first _ s _ 0 p0 p4 (<[1%nat := (p1, p2)]> ∅));
    [| |intros a' Ha'; apply match_at_needs_M|exact Hmatch].
  - change (NumSubexp msgSeqNumTooLowRegex) with 1%nat. cbn [seq map].
    rewrite lookup_insert_eq. unfold slice. f_equal. f_equal.
    + replace (p4 - p0)%nat with (String.length (lit1 ++ n ++ lit2 ++ m))
        by (rewrite !length_append; unfold p4, p3, p2, p1; lia).
      unfold s, p0.
      replace (String.length pre) with (String.length pre + 0)%nat at 1 by lia.
      rewrite substring_skip.
      replace (lit1 ++ n ++ lit2 ++ m ++ post)
        with ((lit1 ++ n ++ lit2 ++ m) ++ post).
      * apply substring_head.
      * rewrite <- !append_assoc_string. reflexivity.
    + f_equal. replace (p2 - p1)%nat with (String.length n) by (unfold p2; lia).
      unfold s, p1, p0.
      replace (String.length pre + String.length lit1)%nat
        with (String.length pre + (String.length lit1 + 0))%nat by lia.
      rewrite !substring_skip. apply substring_head.
  - lia.
  - unfold s. rewrite <- (append_correct1 pre) by (unfold p0 in Ha'; lia).
    apply (free_of_get _ _ Hpre).
Qed.

Lemma substring_empty (a n : nat) : String.substring a n EmptyString = EmptyString.
Proof. destruct a, n; reflexivity. Qed.

Lemma substring_zero (s : string) : forall a, String.substring a 0 s = EmptyString.
Proof.
  induction s as [|c s IH]; intros a; [destruct a; reflexivity|].
  destruct a as [|a]; [reflexivity|exact (IH a)].
Qed.

Lemma substring_split (s : string) : forall a n k,
  String.substring a (n + k) s
  = (String.substring a n s ++ String.substring (a + n) k s)%string.
Proof.
  induction s as [|c s IH]; intros a n k.
  - rewrite !substring_empty. reflexivity.
  - destruct a as [|a].
    + destruct n as [|n]; [reflexivity|].
      change (String c (String.substring 0 (n + k) s)
              = String c (String.substring 0 n s ++ String.substring n k s)%string).
      rewrite (IH 0%nat n k). reflexivity.
    + exact (IH a n k).
Qed.

Lemma substring_all (s : string) : String.substring 0 (String.length s) s = s.
Proof.
  induction s as [|c s IH]; [reflexivity|].
  cbn [String.length String.substring]. rewrite IH. reflexivity.
Qed.

Lemma substring_lit (l s : string) : forall p,
  lit_at l s p = true -> String.substring p (String.length l) s = l.
Proof.
  induction l as [|a l IH]; intros p Hl.
  - apply substring_zero.
  - cbn [lit_at] in Hl. destruct (String.get p s) as [b|] eqn:Hget; [|discriminate].
    apply andb_prop in Hl as [Hab Hl]. apply Ascii.eqb_eq in Hab. subst b.
    change (String.length (String a l)) with (1 + String.length l)%nat.
    rewrite substring_split.
    replace (p + 1)%nat with (S p) by lia.
    rewrite (IH _ Hl).
    assert (Hone : String.substring p 1 s = String a EmptyString).
    { clear -Hget. revert p Hget. induction s as [|c s IHs]; intros p Hget.
      - destruct p; discriminate Hget.
      - destruct p as [|p].
        + cbn [String.get] in Hget. injection Hget as ->.
          cbn [String.substring]. destruct s; reflexivity.
        + exact (IHs p Hget). }
    rewrite Hone. reflexivity.
Qed.

Lemma step_Lit_inv {R} (l s : string) (p : nat) (c : caps)
      (k : nat -> caps -> option R) (r : R) :
  step (Lit l) s p c k = Some r ->
  lit_at l s p = true /\ k (p + String.length l)%nat c = Some r.
Proof.
  cbn [step]. destruct (lit_at l s p); [|discriminate].
  intros Hk. split; [reflexivity|exact Hk].
Qed.

(** The shape of a match of the pattern: the two literals and the two runs
    of digits, one after the other. *)
Lemma tooLow_match_shape (s : string) (p0 q : nat) (c : caps) :
  match_at msgSeqNumTooLowRegex s p0 = Some (q, c) ->
  exists p2,
    let p1 := (p0 + String.length "MsgSeqNum too low, expecting ")%nat in
    let p3 := (p2 + String.length " but received ")%nat in
    lit_at "MsgSeqNum too low, expecting " s p0 = true /\
    (p1 < p2)%nat /\ digits_between s p1 p2 /\
    lit_at " but received " s p2 = true /\
    (p3 < q)%nat /\ digits_between s p3 q /\
    c = <[1%nat := (p1, p2)]> ∅.
Proof.
  unfold match_at, msgSeqNumTooLowRegex. intros Hm.
  rewrite step_Cat in Hm. apply step_Lit_inv in Hm as [Hl1 Hm].
  rewrite step_Cat, step_Capture in Hm.
  apply step_Plus_Digit in Hm as (p2 & Hlt & Hdig & Hm).
  rewrite step_Cat in Hm. apply step_Lit_inv in Hm as [Hl2 Hm].
  apply step_Plus_Digit in Hm as (p4 & Hlt' & Hdig' & Hm).
  injection Hm as <- <-.
  exists p2. cbv zeta. repeat split; assumption.
Qed.

(** X14: Whatever the pattern matches is the text of the pattern: the reason
    holds, somewhere, the first literal, a number, the second literal and
    a number; entry 0 is that text and entry 1 the first number. *)
Theorem FindStringSubmatch_sound (reason : string) (res : list string) :
  FindStringSubmatch msgSeqNumTooLowRegex reason = Some res ->
  exists pre n m post,
    reason = (pre ++ "MsgSeqNum too low, expecting " ++ n ++
              " but received " ++ m ++ post)%string /\
    res = [("MsgSeqNum too low, expecting " ++ n ++ " but received " ++ m)%string;
           n] /\
    n <> EmptyString /\ all_digits n = true /\
    m <> EmptyString /\ all_digits m = true.
Proof.
  unfold FindStringSubmatch.
  destruct (search _ reason _ _) as [[[p0 q] c]|] eqn:Hs; [|discriminate].
  intros Hres. injection Hres as <-.
  apply search_match_at, tooLow_match_shape in Hs
    as (p2 & Hl1 & Hlt & Hdig & Hl2 & Hlt' & Hdig' & ->).
  set (lit1 := "MsgSeqNum too low, expecting ") in *.
  set (lit2 := " but received ") in *.
  set (p1 := (p0 + String.length lit1)%nat) in *.
  set (p3 := (p2 + String.length lit2)%nat) in *.
  destruct (substring_digits reason p1 (p2 - p1)) as [Hall Hlen].
  { replace (p1 + (p2 - p1))%nat with p2 by lia. exact Hdig. }
  destruct (substring_digits reason p3 (q - p3)) as [Hall' Hlen'].
  { replace (p3 + (q - p3))%nat with q by lia. exact Hdig'. }
  assert (Hq : (q <= String.length reason)%nat).
  { destruct (Hdig' (q - 1)%nat ltac:(lia)) as (ch & Hget & _).
    apply get_Some_lt in Hget. lia. }
  assert (Hwhole : String.substring p0 (q - p0) reason
                   = (lit1 ++ String.substring p1 (p2 - p1) reason ++ lit2
                      ++ String.substring p3 (q - p3) reason)%string).
  { replace (q - p0)%nat
      with (String.length lit1 + ((p2 - p1) + (String.length lit2 + (q - p3))))%nat
      by (unfold p3, p1 in *; lia).
    rewrite !substring_split. fold p1.
    replace (p1 + (p2 - p1))%nat with p2 by lia. fold p3.
    rewrite (substring_lit lit1 reason p0 Hl1), (substring_lit lit2 reason p2 Hl2).
    reflexivity. }
  exists (String.substring 0 p0 reason), (String.substring p1 (p2 - p1) reason),
    (String.substring p3 (q - p3) reason),
    (String.substring q (String.length reason - q) reason).
  split.
  - pose proof (substring_all reason) as Hsplit.
    remember (String.length reason) as len eqn:Hlen0.
    replace len with (p0 + ((q - p0) + (len - q)))%nat in Hsplit
      by (unfold p3, p1 in *; lia).
    rewrite !substring_split in Hsplit. cbn [Nat.add] in Hsplit.
    replace (p0 + (q - p0))%nat with q in Hsplit by (unfold p3, p1 in *; lia).
    rewrite Hwhole, !append_assoc_string in Hsplit.
    symmetry. exact Hsplit.
  - split.
    + change (NumSubexp msgSeqNumTooLowRegex) with 1%nat. cbn [seq map].
      rewrite lookup_insert_eq. unfold slice. rewrite Hwhole. reflexivity.
    + repeat split; try assumption.
      * intros Hempty. rewrite Hempty in Hlen. cbn [String.length] in Hlen. lia.
      * intros Hempty. rewrite Hempty in Hlen'. cbn [String.length] in Hlen'. lia.
Qed.

End regexp_exact.

(** ** Properties of the logon-pending state *)

Ltac run_handler :=
  unfold shutdownWithReason, handleStateError, logError, OnEvent, OnEventf,
    index, bind, call, gets, ret, panic, journaled, advanced, logged;
  cbn [world journal sessionID LogonForceSenderMsgSeqNum fst snd].

Ltac tidy_journal := rewrite <- ?app_assoc; cbn [app].

Section Properties.
Context {W : Type} `{Collaborators W}.

(** The shutdown helper, step by step: one event, one logout handed to the
    transport, the increment only when asked for, errors logged, latent. *)
Lemma shutdownWithReason_runs (s : session W) (msg : Message) (incr : bool)
      (reason : string) :
  let logout := buildLogout reason (world s) in
  let '(e1, w1) := dropAndSendInReplyTo logout msg (world s) in
  let '(e2, w2) := if incr then IncrNextTargetMsgSeqNum w1 else (None, w1) in
  shutdownWithReason msg incr reason s =
  (Returned latentState,
   advanced s w2
     ([log_OnEvent reason; session_dropAndSendInReplyTo logout msg]
        ++ logged e1
        ++ (if incr then store_IncrNextTargetMsgSeqNum :: logged e2 else []))).
Proof.
  run_handler.
  destruct (dropAndSendInReplyTo _ msg (world s)) as [e1 w1].
  destruct incr.
  - destruct (IncrNextTargetMsgSeqNum w1) as [e2 w2] eqn:E2.
    destruct e1, e2; run_handler; rewrite ?E2; run_handler;
      tidy_journal; reflexivity.
  - destruct e1; run_handler; tidy_journal; rewrite ?app_nil_r; reflexivity.
Qed.

Lemma sent_app (a b : list Call) : sent (a ++ b) = sent a ++ sent b.
Proof.
  induction a as [|c a IH]; [reflexivity|].
  destruct c; cbn [app sent]; rewrite IH; reflexivity.
Qed.

Lemma increments_app (a b : list Call) :
  increments (a ++ b) = (increments a + increments b)%nat.
Proof.
  induction a as [|c a IH]; [reflexivity|].
  destruct c; cbn [app increments]; rewrite IH; reflexivity.
Qed.

Lemma sent_logged (e : option error) : sent (logged e) = [].
Proof. destruct e; reflexivity. Qed.

Lemma increments_logged (e : option error) : increments (logged e) = O.
Proof. destruct e; reflexivity. Qed.

(** The handler on a Logon that the validation refuses with [verdict],
    where the type switch sends [verdict] to the shutdown helper. *)
Lemma refused_logon_runs (s : session W) (msg : Message) (verdict : error)
      (incr : bool) (w1 : W) :
  has_type msg msgTypeLogon ->
  handleLogon msg (world s) = (Some verdict, w1) ->
  match verdict with
  | RejectLogon _ => incr = true
  | targetTooLow _ => incr = false
  | _ => False
  end ->
  FixMsgIn msg s =
  shutdownWithReason msg incr (Error verdict)
                     (advanced s w1 [session_handleLogon msg]).
Proof.
  intros Ht Hv Hi. unfold FixMsgIn. rewrite Ht.
  change (bytes_Equal msgTypeLogon msgTypeLogout) with false.
  change (bytes_Equal msgTypeLogon msgTypeLogon) with true.
  cbn [negb]. unfold bind at 1, call at 1. rewrite Hv.
  destruct verdict; try contradiction; subst incr; reflexivity.
Qed.

Lemma logon_refused_holds (s : session W) (msg : Message) (verdict : error)
      (incr : bool) :
  match verdict with
  | RejectLogon _ => incr = true
  | targetTooLow _ => incr = false
  | _ => False
  end ->
  logon_refused s msg verdict (if incr then 1%nat else O).
Proof.
  intros Hi w1 Ht Hv.
  rewrite (refused_logon_runs s msg verdict incr w1 Ht Hv Hi).
  pose proof (shutdownWithReason_runs
                (advanced s w1 [session_handleLogon msg]) msg incr
                (Error verdict)) as Hrun.
  cbn [world advanced] in Hrun.
  destruct (dropAndSendInReplyTo _ msg w1) as [e1 w2].
  destruct (if incr then IncrNextTargetMsgSeqNum w2 else (None, w2)) as [e2 w3].
  rewrite Hrun. eexists; eexists. split; [reflexivity|].
  unfold advanced. cbn [journal]. rewrite <- app_assoc. cbn [app].
  split; [reflexivity|]. split.
  - cbn [sent app]. rewrite sent_app, sent_logged.
    destruct incr; cbn [sent app]; rewrite ?sent_logged; reflexivity.
  - cbn [increments app]. rewrite increments_app, increments_logged.
    destruct incr; cbn [increments]; rewrite ?increments_logged; reflexivity.
Qed.

(** C1 (as the code has it): for every inbound Logon that the validation
    rejects outright, the handler yields the latent state, hands exactly
    one logout quoting the rejection reason to the transport, in reply to
    the Logon, and increments the target sequence counter exactly once. *)
Theorem rejected_logon_consumes_slot (s : session W) (msg : Message)
        (text : string) (w1 : W) :
  has_type msg msgTypeLogon ->
  handleLogon msg (world s) = (Some (RejectLogon text), w1) ->
  exists s' calls,
    FixMsgIn msg s = (Returned latentState, s') /\
    journal s' = journal s ++ session_handleLogon msg :: calls /\
    sent calls = [(buildLogout text w1, msg)] /\
    increments calls = 1%nat.
Proof.
  intros Ht Hv.
  exact (logon_refused_holds s msg (RejectLogon text) true eq_refl w1 Ht Hv).
Qed.

(** C2 (as the code has it): for every inbound Logon that the validation
    classifies as target-sequence-too-low, the handler yields the latent
    state, hands exactly one logout quoting the reason to the transport,
    in reply to the Logon, and does not increment the target sequence
    counter. *)
Theorem too_low_logon_keeps_counter (s : session W) (msg : Message)
        (text : string) (w1 : W) :
  has_type msg msgTypeLogon ->
  handleLogon msg (world s) = (Some (targetTooLow text), w1) ->
  exists s' calls,
    FixMsgIn msg s = (Returned latentState, s') /\
    journal s' = journal s ++ session_handleLogon msg :: calls /\
    sent calls = [(buildLogout text w1, msg)] /\
    increments calls = O.
Proof.
  intros Ht Hv.
  exact (logon_refused_holds s msg (targetTooLow text) false eq_refl w1 Ht Hv).
Qed.

(** C5: for every inbound message whose type is neither Logon nor Logout,
    the handler logs one invalid-state event and yields the latent state;
    nothing else happens, so no outbound message is sent. *)
Theorem unexpected_message_disengages (s : session W) (msg : Message)
        (t : string) :
  has_type msg t ->
  t <> msgTypeLogon ->
  t <> msgTypeLogout ->
  let calls :=
    [log_OnEventf
       "Invalid Session State: Received Msg %s while waiting for Logon"
       (ArgMessage msg)] in
  FixMsgIn msg s = (Returned latentState, journaled s calls) /\
  sent calls = [].
Proof.
  intros Ht Hon Hout. split; [|reflexivity].
  unfold FixMsgIn. rewrite Ht. unfold bytes_Equal.
  destruct (String.eqb_spec t msgTypeLogout) as [->|_]; [contradiction|].
  destruct (String.eqb_spec t msgTypeLogon) as [->|_]; [contradiction|].
  reflexivity.
Qed.

(** C6: for every inbound Logon that the validation accepts, the handler
    notifies the application exactly once, for this session, and then
    yields the in-session state. *)
Theorem accepted_logon_enters_session (s : session W) (msg : Message) (w1 : W) :
  has_type msg msgTypeLogon ->
  handleLogon msg (world s) = (None, w1) ->
  let calls := [session_handleLogon msg; application_InSession (sessionID s)] in
  FixMsgIn msg s =
    (Returned inSession, advanced s (InSession (sessionID s) w1) calls) /\
  notified calls = [sessionID s].
Proof.
  intros Ht Hv. split; [|reflexivity].
  unfold FixMsgIn. rewrite Ht.
  change (bytes_Equal msgTypeLogon msgTypeLogout) with false.
  change (bytes_Equal msgTypeLogon msgTypeLogon) with true.
  cbn [negb]. unfold bind at 1, call at 1. rewrite Hv.
  run_handler. tidy_journal. reflexivity.
Qed.

(** C8: on the logon-wait-expired event the timeout handler logs the
    timeout and yields the latent state; on every other event it returns
    the logon-pending state and leaves the session as it was. *)
Theorem timeout_only_on_logon_expiry (s : session W) (e : Event) :
  (e = LogonTimeout ->
   Timeout e s =
     (Returned latentState,
      journaled s [log_OnEvent "Timed out waiting for logon response"])) /\
  (e <> LogonTimeout -> Timeout e s = (Returned logonState, s)).
Proof.
  split.
  - intros ->. reflexivity.
  - intros Hne. destruct e; try reflexivity. contradiction.
Qed.

(** C9: the stop handler yields the latent state and leaves the session,
    its journal and its collaborators untouched. *)
Theorem stop_yields_latent (s : session W) :
  Stop s = (Returned latentState, s).
Proof. reflexivity. Qed.

(** *** Logout while waiting for the logon *)

Lemma handleStateError_runs (s : session W) (err : error) :
  handleStateError err s =
  (Returned latentState, journaled s [session_logError err]).
Proof. reflexivity. Qed.

Lemma journaled_journaled (s : session W) (a b : list Call) :
  journaled (journaled s a) b = journaled s (a ++ b).
Proof. unfold journaled. cbn [journal]. rewrite app_assoc. reflexivity. Qed.

(** The Logout branch up to the regular-expression match. *)
Lemma logout_runs (s : session W) (msg : Message) :
  has_type msg msgTypeLogout ->
  FixMsgIn msg s =
  match GetString (Body msg) tagText with
  | inr err => handleStateError err (journaled s [logout_event msg])
  | inl reason =>
    match regexp.FindStringSubmatch msgSeqNumTooLowRegex reason with
    | None => (Returned latentState, journaled s [logout_event msg])
    | Some res =>
      if LogonForceSenderMsgSeqNum s then
        match nth_error res 1 with
        | None => (Panicked "index out of range", journaled s [logout_event msg])
        | Some d =>
          match strconv.Atoi d with
          | (_, Some err) =>
            handleStateError (numError err) (journaled s [logout_event msg])
          | (n, None) =>
            let '(e, w') := forceNextSenderMsgSeqNum n (world s) in
            (Returned latentState,
             advanced s w'
               ([logout_event msg; forcing_event n;
                 session_forceNextSenderMsgSeqNum n] ++ logged e))
          end
        end
      else (Returned latentState, journaled s [logout_event msg])
    end
  end.
Proof.
  intros Ht. unfold FixMsgIn. rewrite Ht.
  change (bytes_Equal msgTypeLogout msgTypeLogout) with true. cbv iota.
  unfold bind at 1. unfold OnEventf at 1, call at 1.
  fold (logout_event msg). fold (journaled s [logout_event msg]).
  destruct (GetString (Body msg) tagText) as [reason|err]; [|reflexivity].
  destruct (regexp.FindStringSubmatch _ reason) as [res|]; [|reflexivity].
  unfold bind at 1, gets at 1. cbn [journaled LogonForceSenderMsgSeqNum].
  destruct (LogonForceSenderMsgSeqNum s); [|reflexivity].
  unfold bind at 1, index.
  destruct (nth_error res 1) as [d|]; [|reflexivity].
  unfold ret at 1. destruct (strconv.Atoi d) as [n [err|]]; [reflexivity|].
  run_handler.
  destruct (forceNextSenderMsgSeqNum n (world s)) as [[e|] w'];
    run_handler; tidy_journal; reflexivity.
Qed.

(** C3 (as the code has it): for every inbound Logout whose reason matches
    the sequence-too-low pattern with digits [d] in group 1, when the force
    flag is enabled and the number [d] denotes fits the machine integer,
    the handler logs the Logout, logs the forcing event, calls the
    force-set operation once with that number, logs the error of the
    operation if it reports one, and yields the latent state. *)
Theorem matching_logout_forces_sender (s : session W) (msg : Message)
        (reason : string) (res : list string) (d : string) :
  has_type msg msgTypeLogout ->
  GetString (Body msg) tagText = inl reason ->
  regexp.FindStringSubmatch msgSeqNumTooLowRegex reason = Some res ->
  nth_error res 1 = Some d ->
  LogonForceSenderMsgSeqNum s = true ->
  decimal d <= strconv.maxInt ->
  let n := decimal d in
  let '(e, w') := forceNextSenderMsgSeqNum n (world s) in
  let calls :=
    [logout_event msg; forcing_event n; session_forceNextSenderMsgSeqNum n]
      ++ logged e in
  FixMsgIn msg s = (Returned latentState, advanced s w' calls) /\
  forced calls = [n].
Proof.
  intros Ht Hbody Hre Hd Hflag Hfit.
  rewrite (logout_runs s msg Ht), Hbody, Hre, Hflag, Hd.
  destruct (regexp_facts.FindStringSubmatch_tooLow reason res Hre)
    as (whole & d' & -> & Hne & Hall).
  injection Hd as ->.
  rewrite (strconv_facts.Atoi_digits d Hne Hall).
  destruct (Z.leb_spec (decimal d) strconv.maxInt) as [_|Hbig]; [|lia].
  cbv zeta.
  destruct (forceNextSenderMsgSeqNum (decimal d) (world s)) as [e w'].
  split; [reflexivity|]. destruct e; reflexivity.
Qed.

(** C4: for every inbound Logout, if the force flag is disabled or the
    reason text does not match the sequence-too-low pattern, the handler
    yields the latent state having only written to the log: the
    collaborators' state is as it was, and neither store operation was
    called. *)
Theorem logout_without_force_leaves_store (s : session W) (msg : Message) :
  has_type msg msgTypeLogout ->
  LogonForceSenderMsgSeqNum s = false \/
  (forall reason,
      GetString (Body msg) tagText = inl reason ->
      regexp.FindStringSubmatch msgSeqNumTooLowRegex reason = None) ->
  exists calls,
    FixMsgIn msg s = (Returned latentState, journaled s calls) /\
    forallb is_log calls = true /\
    increments calls = O /\
    forced calls = [].
Proof.
  intros Ht Hcase. rewrite (logout_runs s msg Ht).
  destruct (GetString (Body msg) tagText) as [reason|err] eqn:Hbody.
  - exists [logout_event msg].
    split; [|split; [reflexivity|split; reflexivity]].
    destruct (regexp.FindStringSubmatch _ reason) as [res|] eqn:Hre;
      [|reflexivity].
    destruct Hcase as [Hflag|Hno].
    + rewrite Hflag. reflexivity.
    + rewrite (Hno reason eq_refl) in Hre. discriminate Hre.
  - exists [logout_event msg; session_logError err].
    split; [|split; [reflexivity|split; reflexivity]].
    rewrite handleStateError_runs, journaled_journaled. reflexivity.
Qed.

(** The handler never panics: for every session and every message it
    returns a next state. *)
Lemma FixMsgIn_returns (s : session W) (msg : Message) :
  exists st s', FixMsgIn msg s = (Returned st, s').
Proof.
  destruct (GetBytes (Header msg) tagMsgType) as [t|err] eqn:Ht.
  - destruct (String.eqb_spec t msgTypeLogout) as [->|Hout].
    + rewrite (logout_runs s msg Ht).
      destruct (GetString (Body msg) tagText) as [reason|err];
        [|eexists; eexists; reflexivity].
      destruct (regexp.FindStringSubmatch _ reason) as [res|] eqn:Hre;
        [|eexists; eexists; reflexivity].
      destruct (LogonForceSenderMsgSeqNum s); [|eexists; eexists; reflexivity].
      destruct (regexp_facts.FindStringSubmatch_tooLow reason res Hre)
        as (whole & d & -> & _ & _).
      cbn [nth_error].
      destruct (strconv.Atoi d) as [n [err|]]; [eexists; eexists; reflexivity|].
      destruct (forceNextSenderMsgSeqNum n (world s)) as [e w'].
      eexists; eexists; reflexivity.
    + unfold FixMsgIn. rewrite Ht. unfold bytes_Equal.
      destruct (String.eqb_spec t msgTypeLogout) as [?|_]; [contradiction|].
      destruct (String.eqb_spec t msgTypeLogon) as [->|_]; cbn [negb];
        [|eexists; eexists; reflexivity].
      unfold bind at 1, call at 1.
      destruct (handleLogon msg (world s)) as [[verdict|] w1].
      * destruct verdict; try (eexists; eexists; reflexivity).
        -- pose proof (shutdownWithReason_runs
             (advanced s w1 [session_handleLogon msg]) msg true
             (Error (RejectLogon Text))) as Hrun.
           cbn [world advanced] in Hrun.
           destruct (dropAndSendInReplyTo _ msg w1) as [e1 w2].
           destruct (IncrNextTargetMsgSeqNum w2) as [e2 w3].
           eexists; eexists. exact Hrun.
        -- pose proof (shutdownWithReason_runs
             (advanced s w1 [session_handleLogon msg]) msg false
             (Error (targetTooLow text))) as Hrun.
           cbn [world advanced] in Hrun.
           destruct (dropAndSendInReplyTo _ msg w1) as [e1 w2].
           eexists; eexists. exact Hrun.
        -- unfold bind at 1, call at 1. cbn [world].
           destruct (doTargetTooHigh _ w1) as [[st [tooHighErr|]] w2];
             [|eexists; eexists; reflexivity].
           match goal with
           | |- context [shutdownWithReason ?m ?i ?r ?s0] =>
             pose proof (shutdownWithReason_runs s0 m i r) as Hrun
           end.
           cbn [world] in Hrun.
           destruct (dropAndSendInReplyTo _ msg w2) as [e1 w3].
           eexists; eexists. exact Hrun.
      * eexists; eexists; reflexivity.
  - unfold FixMsgIn. rewrite Ht. eexists; eexists; reflexivity.
Qed.

(** C7: for every inbound message on which a required field extraction
    fails (MsgType in the header of any message, Text in the body of a
    Logout), the handler hands the error to the shared state-error
    handler, which logs it, and the result is the latent state; and on
    every message the handler returns a next state. *)
Theorem extraction_failure_yields_latent (s : session W) (msg : Message) :
  (exists st s', FixMsgIn msg s = (Returned st, s')) /\
  forall err,
    GetBytes (Header msg) tagMsgType = inr err \/
    (has_type msg msgTypeLogout /\ GetString (Body msg) tagText = inr err) ->
    exists before,
      before = match GetBytes (Header msg) tagMsgType with
               | inl _ => [logout_event msg]
               | inr _ => []
               end /\
      FixMsgIn msg s = handleStateError err (journaled s before) /\
      FixMsgIn msg s =
        (Returned latentState, journaled s (before ++ [session_logError err])).
Proof.
  split; [apply FixMsgIn_returns|].
  intros err [Hhead|[Ht Hbody]]; eexists; (split; [reflexivity|]).
  - unfold FixMsgIn. rewrite Hhead. split; [|reflexivity].
    unfold journaled. rewrite app_nil_r. destruct s; reflexivity.
  - rewrite (logout_runs s msg Ht), Hbody. rewrite Ht.
    split; [reflexivity|].
    rewrite handleStateError_runs, journaled_journaled. reflexivity.
Qed.

(** C10: whenever the sequence-too-low pattern finds a submatch in a
    logout reason, the result has exactly two entries and entry 1 is a
    non-empty string of decimal digits; [Atoi] on entry 1 can fail only
    with a range error, and only when the number exceeds the machine
    integer; and on that failure the handler, with the force flag on,
    returns what the state-error handler returns, the latent state. *)
Theorem submatch_is_safe_to_parse (s : session W) (msg : Message)
        (reason : string) (res : list string) :
  regexp.FindStringSubmatch msgSeqNumTooLowRegex reason = Some res ->
  length res = 2%nat /\
  exists d,
    nth_error res 1 = Some d /\
    d <> EmptyString /\
    all_digits d = true /\
    forall v e,
      strconv.Atoi d = (v, Some e) ->
      strconv.Err e = strconv.ErrRange /\
      strconv.maxInt < decimal d /\
      (has_type msg msgTypeLogout ->
       GetString (Body msg) tagText = inl reason ->
       LogonForceSenderMsgSeqNum s = true ->
       FixMsgIn msg s =
         handleStateError (numError e) (journaled s [logout_event msg]) /\
       FixMsgIn msg s =
         (Returned latentState,
          journaled s [logout_event msg; session_logError (numError e)])).
Proof.
  intros Hre.
  destruct (regexp_facts.FindStringSubmatch_tooLow reason res Hre)
    as (whole & d & -> & Hne & Hall).
  split; [reflexivity|]. exists d.
  split; [reflexivity|]. split; [exact Hne|]. split; [exact Hall|].
  intros v e Hatoi.
  pose proof (strconv_facts.Atoi_digits d Hne Hall) as Hchar.
  rewrite Hatoi in Hchar.
  destruct (Z.leb_spec (decimal d) strconv.maxInt) as [_|Hbig];
    [discriminate Hchar|].
  injection Hchar as _ ->.
  split; [reflexivity|]. split; [exact Hbig|].
  intros Ht Hbody Hflag.
  rewrite (logout_runs s msg Ht), Hbody, Hre, Hflag. cbn [nth_error].
  rewrite Hatoi. split; [reflexivity|].
  rewrite handleStateError_runs, journaled_journaled. reflexivity.
Qed.

End Properties.

(** ** The paths of the handler *)

Section Paths.
Context {W : Type} `{Collaborators W}.

Lemma advanced_advanced (s : session W) (w1 w2 : W) (a b : list Call) :
  advanced (advanced s w1 a) w2 b = advanced s w2 (a ++ b).
Proof. unfold advanced. cbn [journal sessionID LogonForceSenderMsgSeqNum]. rewrite app_assoc. reflexivity. Qed.

Lemma shutdownWithReason_calls (s : session W) (msg : Message) (incr : bool)
      (reason : string) (e1 e2 : option error) (w1 w2 : W) :
  dropAndSendInReplyTo (buildLogout reason (world s)) msg (world s) = (e1, w1) ->
  (if incr then IncrNextTargetMsgSeqNum w1 else (None, w1)) = (e2, w2) ->
  shutdownWithReason msg incr reason s =
  (Returned latentState,
   advanced s w2 (shutdown_calls msg incr reason (world s) e1 e2)).
Proof.
  intros Hsend Hincr.
  pose proof (shutdownWithReason_runs s msg incr reason) as Hrun.
  cbv zeta in Hrun. rewrite Hsend, Hincr in Hrun. exact Hrun.
Qed.

(** Every run of the handler follows one of the paths. *)
Lemma FixMsgIn_follows_path (s : session W) (msg : Message) :
  exists st w calls,
    FixMsgIn msg s = (Returned st, advanced s w calls) /\
    FixMsgIn_path s msg st w calls.
Proof.
  destruct (GetBytes (Header msg) tagMsgType) as [t|err] eqn:Ht.
  - destruct (String.eqb_spec t msgTypeLogout) as [->|Hout].
    + rewrite (logout_runs s msg Ht).
      destruct (GetString (Body msg) tagText) as [reason|err] eqn:Hbody.
      2:{ do 3 eexists. split; [|exact (path_logout_no_text s msg err Ht Hbody)].
          rewrite handleStateError_runs, journaled_journaled. reflexivity. }
      destruct (regexp.FindStringSubmatch _ reason) as [res|] eqn:Hre.
      2:{ do 3 eexists. split;
            [|exact (path_logout_plain s msg reason Ht Hbody (or_introl Hre))].
          reflexivity. }
      destruct (LogonForceSenderMsgSeqNum s) eqn:Hflag.
      2:{ do 3 eexists. split;
            [|exact (path_logout_plain s msg reason Ht Hbody (or_intror Hflag))].
          reflexivity. }
      destruct (regexp_facts.FindStringSubmatch_tooLow reason res Hre)
        as (whole & d & -> & _ & _).
      cbn [nth_error].
      destruct (strconv.Atoi d) as [n [err|]] eqn:Hatoi.
      { do 3 eexists. split;
          [|exact (path_logout_overflow s msg reason whole d n err
                     Ht Hbody Hre Hflag Hatoi)].
        rewrite handleStateError_runs, journaled_journaled. reflexivity. }
      destruct (forceNextSenderMsgSeqNum n (world s)) as [e w'] eqn:Hforce.
      do 3 eexists. split;
        [|exact (path_logout_forced s msg reason whole d n e w'
                   Ht Hbody Hre Hflag Hatoi Hforce)].
      reflexivity.
    + destruct (String.eqb_spec t msgTypeLogon) as [->|Hon].
      * destruct (handleLogon msg (world s)) as [[verdict|] w1] eqn:Hv.
        -- assert (Hstart : forall k,
                     (match verdict with
                      | RejectLogon _ => shutdownWithReason msg true (Error verdict)
                      | targetTooLow _ => shutdownWithReason msg false (Error verdict)
                      | targetTooHigh _ =>
                        bind (call (session_doTargetTooHigh verdict)
                                   (doTargetTooHigh verdict))
                             (fun r => match r with
                                       | (_, Some tooHighErr) =>
                                         shutdownWithReason msg false (Error tooHighErr)
                                       | (nextState, None) => ret nextState
                                       end)
                      | _ => handleStateError verdict
                      end) (advanced s w1 [session_handleLogon msg]) = k ->
                     FixMsgIn msg s = k).
           { intros k <-. unfold FixMsgIn. rewrite Ht.
             change (bytes_Equal msgTypeLogon msgTypeLogout) with false.
             change (bytes_Equal msgTypeLogon msgTypeLogon) with true.
             cbn [negb]. unfold bind at 1, call at 1. rewrite Hv.
             destruct verdict; reflexivity. }
           destruct verdict as [text|text|text|tag text|e|text].
           ++ destruct (dropAndSendInReplyTo (buildLogout text w1) msg w1)
                as [e1 w2] eqn:Hsend.
              destruct (IncrNextTargetMsgSeqNum w2) as [e2 w3] eqn:Hincr.
              do 3 eexists. split;
                [|exact (path_refused s msg (RejectLogon text) true w1 e1 w2 e2 w3
                           Ht Hv eq_refl Hsend Hincr)].
              apply Hstart.
              rewrite (shutdownWithReason_calls (advanced s w1 [session_handleLogon msg]) msg true
                         (Error (RejectLogon text)) e1 e2 w2 w3 Hsend Hincr).
              rewrite advanced_advanced. reflexivity.
           ++ destruct (dropAndSendInReplyTo (buildLogout text w1) msg w1)
                as [e1 w2] eqn:Hsend.
              do 3 eexists. split;
                [|exact (path_refused s msg (targetTooLow text) false w1 e1 w2 None w2
                           Ht Hv eq_refl Hsend eq_refl)].
              apply Hstart.
              rewrite (shutdownWithReason_calls (advanced s w1 [session_handleLogon msg]) msg false
                         (Error (targetTooLow text)) e1 None w2 w2 Hsend eq_refl).
              rewrite advanced_advanced. reflexivity.
           ++ destruct (doTargetTooHigh (targetTooHigh text) w1)
                as [[st [tooHighErr|]] w2] eqn:Hhigh.
              ** destruct (dropAndSendInReplyTo (buildLogout (Error tooHighErr) w2) msg w2)
                   as [e1 w3] eqn:Hsend.
                 do 3 eexists. split;
                   [|exact (path_too_high_failed s msg text w1 st tooHighErr w2 e1 w3
                              Ht Hv Hhigh Hsend)].
                 apply Hstart. unfold bind at 1, call at 1.
                 cbn [world advanced]. rewrite Hhigh.
                 match goal with
                 | |- shutdownWithReason _ _ _ ?s0 = _ =>
                   rewrite (shutdownWithReason_calls s0 msg false
                              (Error tooHighErr) e1 None w3 w3 Hsend eq_refl)
                 end.
                 unfold advanced.
                 cbn [journal sessionID LogonForceSenderMsgSeqNum world].
                 rewrite <- !app_assoc. reflexivity.
              ** do 3 eexists. split;
                   [|exact (path_too_high_recovered s msg text w1 st w2 Ht Hv Hhigh)].
                 apply Hstart. unfold bind at 1, call at 1.
                 cbn [world advanced]. rewrite Hhigh.
                 unfold ret, advanced. cbn [journal sessionID LogonForceSenderMsgSeqNum].
                 rewrite <- app_assoc. reflexivity.
           ++ do 3 eexists. split;
                [|exact (path_unclassified s msg _ w1 Ht Hv I)].
              apply Hstart. rewrite handleStateError_runs.
              unfold journaled, advanced.
              cbn [journal sessionID LogonForceSenderMsgSeqNum world].
              rewrite <- app_assoc. reflexivity.
           ++ do 3 eexists. split;
                [|exact (path_unclassified s msg _ w1 Ht Hv I)].
              apply Hstart. rewrite handleStateError_runs.
              unfold journaled, advanced.
              cbn [journal sessionID LogonForceSenderMsgSeqNum world].
              rewrite <- app_assoc. reflexivity.
           ++ do 3 eexists. split;
                [|exact (path_unclassified s msg _ w1 Ht Hv I)].
              apply Hstart. rewrite handleStateError_runs.
              unfold journaled, advanced.
              cbn [journal sessionID LogonForceSenderMsgSeqNum world].
              rewrite <- app_assoc. reflexivity.
        -- do 3 eexists. split; [|exact (path_accepted s msg w1 Ht Hv)].
           unfold FixMsgIn. rewrite Ht.
           change (bytes_Equal msgTypeLogon msgTypeLogout) with false.
           change (bytes_Equal msgTypeLogon msgTypeLogon) with true.
           cbn [negb]. unfold bind at 1, call at 1. rewrite Hv.
           run_handler. tidy_journal. reflexivity.
      * do 3 eexists. split; [|exact (path_unexpected s msg t Ht Hon Hout)].
        unfold FixMsgIn. rewrite Ht. unfold bytes_Equal.
        destruct (String.eqb_spec t msgTypeLogout) as [?|_]; [contradiction|].
        destruct (String.eqb_spec t msgTypeLogon) as [?|_]; [contradiction|].
        reflexivity.
  - do 3 eexists. split; [|exact (path_no_type s msg err Ht)].
    unfold FixMsgIn. rewrite Ht. reflexivity.
Qed.

End Paths.

(** ** What the handler does and never does *)

Section Coverage.
Context {W : Type} `{Collaborators W}.

Lemma since_advanced (s : session W) (w : W) (calls : list Call) :
  since s (advanced s w calls) = calls.
Proof.
  unfold since, advanced. cbn [journal].
  rewrite skipn_app, Nat.sub_diag, skipn_all. reflexivity.
Qed.

Lemma forced_app (a b : list Call) : forced (a ++ b) = forced a ++ forced b.
Proof.
  induction a as [|c a IH]; [reflexivity|].
  destruct c; cbn [app forced]; rewrite IH; reflexivity.
Qed.

Lemma notified_app (a b : list Call) : notified (a ++ b) = notified a ++ notified b.
Proof.
  induction a as [|c a IH]; [reflexivity|].
  destruct c; cbn [app notified]; rewrite IH; reflexivity.
Qed.

Lemma validated_app (a b : list Call) :
  validated (a ++ b) = validated a ++ validated b.
Proof.
  induction a as [|c a IH]; [reflexivity|].
  destruct c; cbn [app validated]; rewrite IH; reflexivity.
Qed.

Lemma errors_logged_app (a b : list Call) :
  errors_logged (a ++ b) = errors_logged a ++ errors_logged b.
Proof.
  induction a as [|c a IH]; [reflexivity|].
  destruct c; cbn [app errors_logged]; rewrite IH; reflexivity.
Qed.

Lemma forced_logged (e : option error) : forced (logged e) = [].
Proof. destruct e; reflexivity. Qed.

Lemma notified_logged (e : option error) : notified (logged e) = [].
Proof. destruct e; reflexivity. Qed.

Lemma validated_logged (e : option error) : validated (logged e) = [].
Proof. destruct e; reflexivity. Qed.

(** What the journal readers see in the calls of the shutdown helper. *)
Lemma shutdown_calls_read (msg : Message) (incr : bool) (reason : string)
      (w : W) (e1 e2 : option error) :
  let calls := shutdown_calls msg incr reason w e1 e2 in
  sent calls = [(buildLogout reason w, msg)] /\
  increments calls = (if incr then 1%nat else O) /\
  forced calls = [] /\ notified calls = [] /\ validated calls = [].
Proof.
  unfold shutdown_calls. cbn [app sent increments forced notified validated].
  rewrite sent_app, increments_app, forced_app, notified_app, validated_app,
    sent_logged, increments_logged, forced_logged, notified_logged,
    validated_logged.
  destruct incr; cbn [app sent increments forced notified validated Nat.add];
    rewrite ?sent_logged, ?increments_logged, ?forced_logged, ?notified_logged,
      ?validated_logged; repeat split; reflexivity.
Qed.


(** Go through the paths of the handler, dropping those that contradict what
    is known of the message and of the collaborators' answers. *)
Ltac prune_paths :=
  unfold has_type, msgTypeLogon, msgTypeLogout in *;
  try congruence;
  try match goal with
      | Hf : shutdown_flag ?v _ |- _ =>
        destruct v; try contradiction; try congruence
      | Hu : unclassified ?v |- _ =>
        destruct v; try contradiction; try congruence
      end.

Ltac read_journal :=
  cbn [app sent increments forced notified validated errors_logged];
  rewrite ?sent_app, ?increments_app, ?forced_app, ?notified_app, ?validated_app,
    ?sent_logged, ?increments_logged, ?forced_logged, ?notified_logged,
    ?validated_logged;
  cbn [app sent increments forced notified validated errors_logged Nat.add].

(** X1: The shutdown helper yields the latent state whatever the transport and
    the store answer; it hands exactly one logout to the transport, built
    from the reason and in reply to the inbound message, and increments the
    target sequence counter once when asked to and never otherwise. It
    neither forces the sender sequence number nor notifies the application,
    and it leaves the session's identity and configuration alone. *)
Theorem shutdownWithReason_outcome (s : session W) (msg : Message)
        (incr : bool) (reason : string) :
  let '(r, s') := shutdownWithReason msg incr reason s in
  r = Returned latentState /\
  sent (since s s') = [(buildLogout reason (world s), msg)] /\
  increments (since s s') = (if incr then 1%nat else O) /\
  forced (since s s') = [] /\
  notified (since s s') = [] /\
  sessionID s' = sessionID s /\
  LogonForceSenderMsgSeqNum s' = LogonForceSenderMsgSeqNum s.
Proof.
  destruct (dropAndSendInReplyTo (buildLogout reason (world s)) msg (world s))
    as [e1 w1] eqn:Hsend.
  destruct (if incr then IncrNextTargetMsgSeqNum w1 else (None, w1))
    as [e2 w2] eqn:Hincr.
  rewrite (shutdownWithReason_calls s msg incr reason e1 e2 w1 w2 Hsend Hincr).
  rewrite since_advanced.
  destruct (shutdown_calls_read msg incr reason (world s) e1 e2)
    as (Hs & Hi & Hf & Hn & _).
  repeat split; assumption || reflexivity.
Qed.

(** X2: Errors of the transport and of the store do not stop the shutdown: the
    logout is sent first, the increment (when asked for) acts on the state
    the transport left, also after a failed send, and the errors logged are
    exactly the ones reported, in that order. *)
Theorem shutdownWithReason_tolerates_failures (s : session W) (msg : Message)
        (incr : bool) (reason : string) (e1 e2 : option error) (w1 w2 : W) :
  dropAndSendInReplyTo (buildLogout reason (world s)) msg (world s) = (e1, w1) ->
  (if incr then IncrNextTargetMsgSeqNum w1 else (None, w1)) = (e2, w2) ->
  let '(r, s') := shutdownWithReason msg incr reason s in
  r = Returned latentState /\
  world s' = w2 /\
  errors_logged (since s s') = errors_logged (logged e1 ++ logged e2) /\
  hd_error (since s s') = Some (log_OnEvent reason).
Proof.
  intros Hsend Hincr.
  rewrite (shutdownWithReason_calls s msg incr reason e1 e2 w1 w2 Hsend Hincr).
  rewrite since_advanced. split; [reflexivity|]. split; [reflexivity|].
  split; [|reflexivity].
  unfold shutdown_calls. cbn [app errors_logged].
  rewrite !errors_logged_app. f_equal.
  destruct incr; [reflexivity|].
  injection Hincr as <- _. reflexivity.
Qed.

(** X3: A Logon ahead of the expected sequence number whose recovery succeeds:
    the handler returns the state the recovery procedure chose, having
    called only the validation and the recovery; no logout is sent and the
    target sequence counter is not incremented. *)
Theorem too_high_logon_recovers (s : session W) (msg : Message) (text : string)
        (w1 w2 : W) (st : sessionState) :
  has_type msg msgTypeLogon ->
  handleLogon msg (world s) = (Some (targetTooHigh text), w1) ->
  doTargetTooHigh (targetTooHigh text) w1 = ((st, None), w2) ->
  FixMsgIn msg s =
  (Returned st,
   advanced s w2 [session_handleLogon msg;
                  session_doTargetTooHigh (targetTooHigh text)]).
Proof.
  intros Ht Hv Hhigh.
  destruct (FixMsgIn_follows_path s msg) as (st' & w & calls & Hrun & Hpath).
  rewrite Hrun.
  destruct Hpath; prune_paths.
Qed.

(** X4: A Logon ahead of the expected sequence number whose recovery fails: the
    state the recovery returned is dropped, the handler yields the latent
    state and sends exactly one logout, quoting the error of the recovery
    (not the too-high error), without incrementing the target sequence
    counter. *)
Theorem too_high_logon_recovery_fails (s : session W) (msg : Message)
        (text : string) (w1 w2 : W) (st : sessionState) (tooHighErr : error) :
  has_type msg msgTypeLogon ->
  handleLogon msg (world s) = (Some (targetTooHigh text), w1) ->
  doTargetTooHigh (targetTooHigh text) w1 = ((st, Some tooHighErr), w2) ->
  let '(r, s') := FixMsgIn msg s in
  r = Returned latentState /\
  sent (since s s') = [(buildLogout (Error tooHighErr) w2, msg)] /\
  increments (since s s') = O /\
  In (log_OnEvent (Error tooHighErr)) (since s s').
Proof.
  intros Ht Hv Hhigh.
  destruct (FixMsgIn_follows_path s msg) as (st' & w & calls & Hrun & Hpath).
  rewrite Hrun, since_advanced.
  destruct Hpath as [| | | | | | | | |text' w1' st' err' w2' e1 w3 _ Hv' Hhigh' _|];
    prune_paths.
  assert (text' = text) as -> by congruence.
  assert (w1' = w1) as -> by congruence.
  rewrite Hhigh in Hhigh'. injection Hhigh' as <- <- <-.
  destruct (shutdown_calls_read msg false (Error tooHighErr) w2 e1 None)
    as (Hs & Hi & _).
  split; [reflexivity|]. read_journal.
  split; [exact Hs|]. split; [exact Hi|].
  right. right. left. reflexivity.
Qed.

Ltac use_answers :=
  unfold logouts_due, is_type, has_type in *;
  repeat match goal with
         | Hh : GetBytes _ _ = _ |- _ => rewrite Hh; clear Hh
         | Hh : handleLogon _ _ = _ |- _ => rewrite Hh; clear Hh
         | Hh : doTargetTooHigh _ _ = _ |- _ => rewrite Hh; clear Hh
         end.

Lemma bytes_Equal_false (t u : string) : t <> u -> bytes_Equal t u = false.
Proof. intros Hne. apply String.eqb_neq. exact Hne. Qed.

(** X5: An error of the logon validation that is none of the three kinds the
    type switch names goes to the shared state-error handler: it is logged,
    no logout is sent, and the result is the latent state. *)
Theorem unclassified_logon_error_is_logged (s : session W) (msg : Message)
        (verdict : error) (w1 : W) :
  has_type msg msgTypeLogon ->
  handleLogon msg (world s) = (Some verdict, w1) ->
  unclassified verdict ->
  FixMsgIn msg s =
    handleStateError verdict (advanced s w1 [session_handleLogon msg]) /\
  FixMsgIn msg s =
    (Returned latentState,
     advanced s w1 [session_handleLogon msg; session_logError verdict]).
Proof.
  intros Ht Hv Hu.
  destruct (FixMsgIn_follows_path s msg) as (st & w & calls & Hrun & Hpath).
  rewrite Hrun.
  destruct Hpath as [| | | | | |w1' _ Hv'|v incr w1' e1 w2 e2 w3 _ Hv' Hf
                     |t' w1' st' w2' _ Hv'|t' w1' st' err' w2' e1 w3 _ Hv'
                     |v w1' _ Hv' _];
    try (unfold has_type, msgTypeLogon, msgTypeLogout in *; congruence);
    rewrite Hv in Hv'.
  - injection Hv' as <- <-. destruct verdict; contradiction.
  - injection Hv' as -> <-. contradiction.
  - injection Hv' as -> <-. contradiction.
  - injection Hv' as <- <-. split; [|reflexivity].
    rewrite handleStateError_runs. unfold journaled, advanced.
    cbn [journal sessionID LogonForceSenderMsgSeqNum world].
    rewrite <- app_assoc. reflexivity.
Qed.

(** X6: Every Logout received while waiting for the logon yields the latent
    state. The handler does not consult the logon validation, sends
    nothing, does not touch the target sequence counter and does not notify
    the application; at most it forces the sender sequence number once. *)
Theorem logout_always_yields_latent (s : session W) (msg : Message) :
  has_type msg msgTypeLogout ->
  let '(r, s') := FixMsgIn msg s in
  r = Returned latentState /\
  validated (since s s') = [] /\
  sent (since s s') = [] /\
  increments (since s s') = O /\
  notified (since s s') = [] /\
  (length (forced (since s s')) <= 1)%nat /\
  hd_error (since s s') = Some (logout_event msg).
Proof.
  intros Ht.
  destruct (FixMsgIn_follows_path s msg) as (st & w & calls & Hrun & Hpath).
  rewrite Hrun, since_advanced.
  destruct Hpath; prune_paths; read_journal;
    repeat split; reflexivity || (cbn; lia).
Qed.


(** X8: The application is notified exactly when the message is a Logon that the
    validation accepts, and then once, for this session. *)
Theorem notified_iff_accepted (s : session W) (msg : Message) :
  let '(_, s') := FixMsgIn msg s in
  notified (since s s') =
  if is_type msg msgTypeLogon then
    match handleLogon msg (world s) with
    | (None, _) => [sessionID s]
    | (Some _, _) => []
    end
  else [].
Proof.
  destruct (FixMsgIn_follows_path s msg) as (st & w & calls & Hrun & Hpath).
  rewrite Hrun, since_advanced.
  destruct Hpath; read_journal; use_answers;
    rewrite ?bytes_Equal_false by assumption;
    try reflexivity.
  - destruct (shutdown_calls_read msg incr (Error verdict) w1 e1 e2)
      as (_ & _ & _ & Hn & _). exact Hn.
  - destruct (shutdown_calls_read msg false (Error tooHighErr) w2 e1 None)
      as (_ & _ & _ & Hn & _). exact Hn.
Qed.


(** X10: The handler sends at most one logout per message, always in reply to
    that message: for a Logon rejected outright or behind the expected
    sequence number, quoting the validation's reason; for a Logon ahead of
    it whose recovery fails, quoting the recovery's error; nothing
    otherwise. *)
Theorem sent_is_logouts_due (s : session W) (msg : Message) :
  let '(_, s') := FixMsgIn msg s in
  sent (since s s') = logouts_due s msg.
Proof.
  destruct (FixMsgIn_follows_path s msg) as (st & w & calls & Hrun & Hpath).
  rewrite Hrun, since_advanced.
  destruct Hpath; read_journal; use_answers;
    rewrite ?bytes_Equal_false by assumption;
    try reflexivity.
  - destruct (shutdown_calls_read msg incr (Error verdict) w1 e1 e2)
      as (Hs & _). rewrite Hs.
    destruct verdict; try contradiction; reflexivity.
  - destruct (shutdown_calls_read msg false (Error tooHighErr) w2 e1 None)
      as (Hs & _). exact Hs.
  - destruct verdict; try contradiction; reflexivity.
Qed.


(** X15: A Logout whose reason holds the text of the pattern (after a part
    without [M], the second number not followed by a digit), from text to
    outcome: with the force flag off only the Logout is logged; with the flag
    on the sender sequence number is forced to the first number when that
    fits [int], and otherwise nothing is forced and the range error of the
    parse is logged. The result is the latent state each time. *)
Theorem too_low_report_outcome (s : session W) (msg : Message)
        (pre n m post : string) :
  has_type msg msgTypeLogout ->
  GetString (Body msg) tagText
    = inl (pre ++ "MsgSeqNum too low, expecting " ++ n ++
           " but received " ++ m ++ post)%string ->
  free_of "M" pre = true ->
  n <> EmptyString -> all_digits n = true ->
  m <> EmptyString -> all_digits m = true ->
  no_leading_digit post = true ->
  FixMsgIn msg s =
  if LogonForceSenderMsgSeqNum s then
    if decimal n <=? strconv.maxInt then
      let '(e, w') := forceNextSenderMsgSeqNum (decimal n) (world s) in
      (Returned latentState,
       advanced s w'
         ([logout_event msg; forcing_event (decimal n);
           session_forceNextSenderMsgSeqNum (decimal n)] ++ logged e))
    else
      (Returned latentState,
       journaled s [logout_event msg;
                    session_logError (numError (strconv.rangeError "Atoi" n))])
  else (Returned latentState, journaled s [logout_event msg]).
Proof.
  intros Ht Hbody Hpre Hn Hnd Hm Hmd Hpost.
  rewrite (logout_runs s msg Ht), Hbody.
  rewrite (regexp_exact.FindStringSubmatch_extracts pre n m post
             Hpre Hn Hnd Hm Hmd Hpost).
  destruct (LogonForceSenderMsgSeqNum s); [|reflexivity].
  cbn [nth_error]. rewrite (strconv_facts.Atoi_digits n Hn Hnd).
  destruct (decimal n <=? strconv.maxInt); [reflexivity|].
  rewrite handleStateError_runs, journaled_journaled. reflexivity.
Qed.

End Coverage.

(** ** The handlers on concrete sessions *)

Module Examples.
Import Fixture.

(** C1, checked on a rejected Logon: one logout quoting the reason, and
    the target sequence counter goes from 2 to 3. *)
Lemma rejected_logon_consumes_slot_witness :
  has_type logon msgTypeLogon /\
  handleLogon logon (world (awaiting false (Some bad_credentials)))
    = (Some bad_credentials, world (awaiting false (Some bad_credentials))) /\
  exists s' calls,
    FixMsgIn logon (awaiting false (Some bad_credentials))
      = (Returned latentState, s') /\
    journal s' = [] ++ session_handleLogon logon :: calls /\
    sent calls = [(Fixture.logout "bad credentials", logon)] /\
    increments calls = 1%nat.
Proof.
  split; [reflexivity|]. split; [reflexivity|].
  exact (rejected_logon_consumes_slot
           (awaiting false (Some bad_credentials)) logon "bad credentials"
           (world (awaiting false (Some bad_credentials))) eq_refl eq_refl).
Defined.

(** C1 as the specification words it fails on that input: the handler does
    increment the target sequence counter. *)
Lemma rejected_logon_without_increment_fails :
  increments (journal (snd (FixMsgIn logon (awaiting false (Some bad_credentials)))))
    = 1%nat /\
  nextTargetMsgSeqNum
    (world (snd (FixMsgIn logon (awaiting false (Some bad_credentials))))) = 3 /\
  ~ logon_refused (awaiting false (Some bad_credentials)) logon bad_credentials 0.
Proof.
  split; [reflexivity|]. split; [reflexivity|].
  intros Hclaim.
  destruct (Hclaim _ eq_refl eq_refl) as (s' & calls & Hrun & Hj & _ & Hincr).
  vm_compute in Hrun. injection Hrun as <-.
  vm_compute in Hj. injection Hj as <-.
  discriminate Hincr.
Qed.

(** C2, checked on a Logon behind the expected sequence number: one logout
    quoting the reason, the target sequence counter is not touched. *)
Lemma too_low_logon_keeps_counter_witness :
  has_type logon msgTypeLogon /\
  handleLogon logon (world (awaiting false (Some behind)))
    = (Some behind, world (awaiting false (Some behind))) /\
  exists s' calls,
    FixMsgIn logon (awaiting false (Some behind)) = (Returned latentState, s') /\
    journal s' = [] ++ session_handleLogon logon :: calls /\
    sent calls = [(Fixture.logout (Error behind), logon)] /\
    increments calls = O.
Proof.
  split; [reflexivity|]. split; [reflexivity|].
  exact (too_low_logon_keeps_counter
           (awaiting false (Some behind)) logon (Error behind)
           (world (awaiting false (Some behind))) eq_refl eq_refl).
Defined.

(** C2 as the specification words it fails on that input: the handler does
    not increment the target sequence counter. *)
Lemma too_low_logon_with_increment_fails :
  increments (journal (snd (FixMsgIn logon (awaiting false (Some behind))))) = O /\
  nextTargetMsgSeqNum
    (world (snd (FixMsgIn logon (awaiting false (Some behind))))) = 2 /\
  ~ logon_refused (awaiting false (Some behind)) logon behind 1.
Proof.
  split; [reflexivity|]. split; [reflexivity|].
  intros Hclaim.
  destruct (Hclaim _ eq_refl eq_refl) as (s' & calls & Hrun & Hj & _ & Hincr).
  vm_compute in Hrun. injection Hrun as <-.
  vm_compute in Hj. injection Hj as <-.
  discriminate Hincr.
Qed.

(** C3, checked on the Logout of the specification: the sender sequence
    number is forced to 42. *)
Lemma matching_logout_forces_sender_witness :
  has_type (Fixture.logout expecting_42) msgTypeLogout /\
  GetString (Body (Fixture.logout expecting_42)) tagText = inl expecting_42 /\
  regexp.FindStringSubmatch msgSeqNumTooLowRegex expecting_42
    = Some [expecting_42; "42"] /\
  decimal "42" <= strconv.maxInt /\
  FixMsgIn (Fixture.logout expecting_42) (awaiting true None) =
    (Returned latentState,
     advanced (awaiting true None) (mkWorld None 42 2 [] [])
       [logout_event (Fixture.logout expecting_42); forcing_event 42;
        session_forceNextSenderMsgSeqNum 42]).
Proof.
  assert (Hfit : decimal "42" <= strconv.maxInt) by (vm_compute; discriminate).
  split; [reflexivity|]. split; [reflexivity|]. split; [reflexivity|].
  split; [exact Hfit|].
  exact (proj1 (matching_logout_forces_sender
                  (awaiting true None) (Fixture.logout expecting_42)
                  expecting_42 [expecting_42; "42"] "42"
                  eq_refl eq_refl eq_refl eq_refl eq_refl Hfit)).
Defined.

(** The statement [logout_forces] does hold on the Logout that expects 42. *)
Lemma logout_forces_at_42 :
  logout_forces (awaiting true None) (Fixture.logout expecting_42).
Proof.
  intros reason res d _ Hbody Hre _ Hd.
  vm_compute in Hbody. injection Hbody as <-.
  vm_compute in Hre. injection Hre as <-.
  cbn [nth_error] in Hd. injection Hd as <-.
  eexists; eexists. split; [vm_compute; reflexivity|].
  split; [reflexivity|]. split; [reflexivity|].
  right. left. reflexivity.
Qed.

(** C3 as the specification words it fails when the number in the reason
    does not fit the machine integer: nothing is forced, the parse error is
    logged. *)
Lemma logout_forces_fails_beyond_int :
  forced (journal (snd (FixMsgIn (Fixture.logout expecting_2_63)
                                 (awaiting true None)))) = [] /\
  nextSenderMsgSeqNum
    (world (snd (FixMsgIn (Fixture.logout expecting_2_63)
                          (awaiting true None)))) = 2 /\
  ~ logout_forces (awaiting true None) (Fixture.logout expecting_2_63).
Proof.
  split; [vm_compute; reflexivity|]. split; [vm_compute; reflexivity|].
  intros Hclaim.
  destruct (Hclaim expecting_2_63 [expecting_2_63; two_63] two_63
                   eq_refl eq_refl eq_refl eq_refl eq_refl)
    as (s' & calls & Hrun & Hj & Hforced & _).
  vm_compute in Hrun. injection Hrun as <-.
  vm_compute in Hj. subst calls.
  discriminate Hforced.
Qed.

(** C4, checked on the same Logout with the force flag off. *)
Lemma logout_without_force_leaves_store_witness :
  has_type (Fixture.logout expecting_42) msgTypeLogout /\
  LogonForceSenderMsgSeqNum (awaiting false None) = false /\
  exists calls,
    FixMsgIn (Fixture.logout expecting_42) (awaiting false None) =
      (Returned latentState, journaled (awaiting false None) calls) /\
    forallb is_log calls = true /\
    increments calls = O /\
    forced calls = [].
Proof.
  split; [reflexivity|]. split; [reflexivity|].
  exact (logout_without_force_leaves_store
           (awaiting false None) (Fixture.logout expecting_42)
           eq_refl (or_introl eq_refl)).
Defined.

(** C5, checked on a Heartbeat. *)
Lemma unexpected_message_disengages_witness :
  has_type heartbeat "0" /\
  "0" <> msgTypeLogon /\
  "0" <> msgTypeLogout /\
  FixMsgIn heartbeat (awaiting true None) =
    (Returned latentState,
     journaled (awaiting true None)
       [log_OnEventf
          "Invalid Session State: Received Msg %s while waiting for Logon"
          (ArgMessage heartbeat)]).
Proof.
  assert (Hon : "0" <> msgTypeLogon) by discriminate.
  assert (Hout : "0" <> msgTypeLogout) by discriminate.
  split; [reflexivity|]. split; [exact Hon|]. split; [exact Hout|].
  exact (proj1 (unexpected_message_disengages
                  (awaiting true None) heartbeat "0" eq_refl Hon Hout)).
Defined.

(** C6, checked on an accepted Logon. *)
Lemma accepted_logon_enters_session_witness :
  has_type logon msgTypeLogon /\
  handleLogon logon (world (awaiting false None))
    = (None, world (awaiting false None)) /\
  FixMsgIn logon (awaiting false None) =
    (Returned inSession,
     advanced (awaiting false None) (mkWorld None 2 2 [] [Fixture.id])
       [session_handleLogon logon; application_InSession Fixture.id]).
Proof.
  split; [reflexivity|]. split; [reflexivity|].
  exact (proj1 (accepted_logon_enters_session
                  (awaiting false None) logon (world (awaiting false None))
                  eq_refl eq_refl)).
Defined.

(** C7, checked on a message without MsgType and on a Logout without Text. *)
Lemma extraction_failure_yields_latent_witness :
  GetBytes (Header no_type) tagMsgType = inr (missing tagMsgType) /\
  FixMsgIn no_type (awaiting true None) =
    (Returned latentState,
     journaled (awaiting true None) [session_logError (missing tagMsgType)]) /\
  has_type logout_no_text msgTypeLogout /\
  GetString (Body logout_no_text) tagText = inr (missing tagText) /\
  FixMsgIn logout_no_text (awaiting true None) =
    (Returned latentState,
     journaled (awaiting true None)
       [logout_event logout_no_text; session_logError (missing tagText)]).
Proof.
  split; [reflexivity|]. split.
  - destruct (proj2 (extraction_failure_yields_latent (awaiting true None) no_type)
                    (missing tagMsgType) (or_introl eq_refl))
      as (before & Hbefore & _ & Hrun).
    rewrite Hrun, Hbefore. reflexivity.
  - split; [reflexivity|]. split; [reflexivity|].
    destruct (proj2 (extraction_failure_yields_latent
                       (awaiting true None) logout_no_text)
                    (missing tagText) (or_intror (conj eq_refl eq_refl)))
      as (before & Hbefore & _ & Hrun).
    rewrite Hrun, Hbefore. reflexivity.
Defined.

(** C8, checked on the logon-wait expiry and on a heartbeat timer. *)
Lemma timeout_only_on_logon_expiry_witness :
  Timeout LogonTimeout (awaiting true None) =
    (Returned latentState,
     journaled (awaiting true None)
       [log_OnEvent "Timed out waiting for logon response"]) /\
  NeedHeartbeat <> LogonTimeout /\
  Timeout NeedHeartbeat (awaiting true None) =
    (Returned logonState, awaiting true None).
Proof.
  assert (Hne : NeedHeartbeat <> LogonTimeout) by discriminate.
  split.
  - exact (proj1 (timeout_only_on_logon_expiry (awaiting true None) LogonTimeout)
                 eq_refl).
  - split; [exact Hne|].
    exact (proj2 (timeout_only_on_logon_expiry (awaiting true None) NeedHeartbeat)
                 Hne).
Defined.

(** C10, checked on a reason whose number is one beyond the largest [int]:
    the parse fails with a range error and the handler logs it. *)
Lemma submatch_is_safe_to_parse_witness :
  regexp.FindStringSubmatch msgSeqNumTooLowRegex expecting_2_63
    = Some [expecting_2_63; two_63] /\
  strconv.Atoi two_63 = (strconv.maxInt, Some (strconv.rangeError "Atoi" two_63)) /\
  FixMsgIn (Fixture.logout expecting_2_63) (awaiting true None) =
    (Returned latentState,
     journaled (awaiting true None)
       [logout_event (Fixture.logout expecting_2_63);
        session_logError (numError (strconv.rangeError "Atoi" two_63))]).
Proof.
  assert (Hre : regexp.FindStringSubmatch msgSeqNumTooLowRegex expecting_2_63
                = Some [expecting_2_63; two_63]) by reflexivity.
  split; [exact Hre|]. split; [reflexivity|].
  destruct (submatch_is_safe_to_parse
              (awaiting true None) (Fixture.logout expecting_2_63)
              expecting_2_63 [expecting_2_63; two_63] Hre)
    as (_ & d & Hd & _ & _ & Hfail).
  injection Hd as <-.
  destruct (Hfail strconv.maxInt (strconv.rangeError "Atoi" two_63) eq_refl)
    as (_ & _ & Hrun).
  exact (proj2 (Hrun eq_refl eq_refl eq_refl)).
Defined.

End Examples.

(** ** The rest of the handler on concrete sessions *)

Module Coverage_examples.
Import Fixture Faulty.

Definition ahead : error :=
  targetTooHigh "MsgSeqNum too high, expecting 2 but received 9".

Definition broken : error := otherError "validation broke".

Definition peer_report : string :=
  "Peer: MsgSeqNum too low, expecting 42 but received 7.".

(** The shutdown helper with a transport and a store that both fail: both
    errors are logged, both calls were made. *)
Lemma shutdownWithReason_tolerates_failures_witness :
  dropAndSendInReplyTo
    (buildLogout "bad credentials" (world (Faulty.awaiting None)))
    Fixture.logon (world (Faulty.awaiting None))
    = (Some Faulty.connection_reset, Faulty.mkWorld None 1) /\
  IncrNextTargetMsgSeqNum (Faulty.mkWorld None 1)
    = (Some Faulty.store_closed, Faulty.mkWorld None 2) /\
  let '(r, s') :=
    shutdownWithReason Fixture.logon true "bad credentials" (Faulty.awaiting None) in
  r = Returned latentState /\
  world s' = Faulty.mkWorld None 2 /\
  errors_logged (since (Faulty.awaiting None) s')
    = [Faulty.connection_reset; Faulty.store_closed] /\
  hd_error (since (Faulty.awaiting None) s') = Some (log_OnEvent "bad credentials").
Proof.
  split; [reflexivity|]. split; [reflexivity|].
  exact (shutdownWithReason_tolerates_failures
           (Faulty.awaiting None) Fixture.logon true "bad credentials"
           (Some Faulty.connection_reset) (Some Faulty.store_closed)
           (Faulty.mkWorld None 1) (Faulty.mkWorld None 2) eq_refl eq_refl).
Defined.

(** A Logon ahead of the expected sequence number, recovery succeeding. *)
Lemma too_high_logon_recovers_witness :
  has_type Fixture.logon msgTypeLogon /\
  FixMsgIn Fixture.logon (Fixture.awaiting false (Some ahead)) =
    (Returned (delegated "resendState"),
     advanced (Fixture.awaiting false (Some ahead))
       (world (Fixture.awaiting false (Some ahead)))
       [session_handleLogon Fixture.logon; session_doTargetTooHigh ahead]).
Proof.
  split; [reflexivity|].
  exact (too_high_logon_recovers
           (Fixture.awaiting false (Some ahead)) Fixture.logon
           "MsgSeqNum too high, expecting 2 but received 9"
           (world (Fixture.awaiting false (Some ahead)))
           (world (Fixture.awaiting false (Some ahead)))
           (delegated "resendState") eq_refl eq_refl eq_refl).
Defined.

(** A Logon ahead of the expected sequence number, recovery failing: the
    logout quotes the error of the recovery. *)
Lemma too_high_logon_recovery_fails_witness :
  has_type Fixture.logon msgTypeLogon /\
  let '(r, s') := FixMsgIn Fixture.logon (Faulty.awaiting (Some ahead)) in
  r = Returned latentState /\
  sent (since (Faulty.awaiting (Some ahead)) s')
    = [(Fixture.logout "resend request failed", Fixture.logon)] /\
  increments (since (Faulty.awaiting (Some ahead)) s') = O /\
  In (log_OnEvent "resend request failed") (since (Faulty.awaiting (Some ahead)) s').
Proof.
  split; [reflexivity|].
  exact (too_high_logon_recovery_fails
           (Faulty.awaiting (Some ahead)) Fixture.logon
           "MsgSeqNum too high, expecting 2 but received 9"
           (Faulty.mkWorld (Some ahead) 0) (Faulty.mkWorld (Some ahead) 1)
           (delegated "resendState") Faulty.resend_failed
           eq_refl eq_refl eq_refl).
Defined.

(** A Logon whose validation fails with an error of no particular kind. *)
Lemma unclassified_logon_error_is_logged_witness :
  has_type Fixture.logon msgTypeLogon /\
  unclassified broken /\
  FixMsgIn Fixture.logon (Fixture.awaiting false (Some broken)) =
    (Returned latentState,
     advanced (Fixture.awaiting false (Some broken))
       (world (Fixture.awaiting false (Some broken)))
       [session_handleLogon Fixture.logon; session_logError broken]).
Proof.
  split; [reflexivity|]. split; [exact I|].
  exact (proj2 (unclassified_logon_error_is_logged
                  (Fixture.awaiting false (Some broken)) Fixture.logon broken
                  (world (Fixture.awaiting false (Some broken)))
                  eq_refl eq_refl I)).
Defined.

(** The Logout that expects 42, flag on: latent, one force, nothing sent. *)
Lemma logout_always_yields_latent_witness :
  has_type (Fixture.logout Fixture.expecting_42) msgTypeLogout /\
  let '(r, s') :=
    FixMsgIn (Fixture.logout Fixture.expecting_42) (Fixture.awaiting true None) in
  r = Returned latentState /\
  validated (since (Fixture.awaiting true None) s') = [] /\
  sent (since (Fixture.awaiting true None) s') = [] /\
  increments (since (Fixture.awaiting true None) s') = O /\
  notified (since (Fixture.awaiting true None) s') = [] /\
  (length (forced (since (Fixture.awaiting true None) s')) <= 1)%nat /\
  hd_error (since (Fixture.awaiting true None) s')
    = Some (logout_event (Fixture.logout Fixture.expecting_42)).
Proof.
  split; [reflexivity|].
  exact (logout_always_yields_latent
           (Fixture.awaiting true None) (Fixture.logout Fixture.expecting_42)
           eq_refl).
Defined.



(** The pattern in a reason with text before and after it. *)
Lemma FindStringSubmatch_extracts_witness :
  free_of "M" "Peer: " = true /\
  "42" <> EmptyString /\ all_digits "42" = true /\
  "7" <> EmptyString /\ all_digits "7" = true /\
  no_leading_digit "." = true /\
  regexp.FindStringSubmatch msgSeqNumTooLowRegex peer_report
    = Some [Fixture.expecting_42; "42"].
Proof.
  assert (Hn : "42" <> EmptyString) by discriminate.
  assert (Hm : "7" <> EmptyString) by discriminate.
  split; [reflexivity|]. split; [exact Hn|]. split; [reflexivity|].
  split; [exact Hm|]. split; [reflexivity|]. split; [reflexivity|].
  exact (regexp_exact.FindStringSubmatch_extracts "Peer: " "42" "7" "."
           eq_refl Hn eq_refl Hm eq_refl eq_refl).
Defined.

(** The pattern is found also after an [M] and before a digit. *)
Lemma FindStringSubmatch_finds_witness :
  "007" <> EmptyString /\ all_digits "007" = true /\
  "7" <> EmptyString /\ all_digits "7" = true /\
  is_Some (regexp.FindStringSubmatch msgSeqNumTooLowRegex
             "MMsgSeqNum too low, expecting 007 but received 78").
Proof.
  assert (Hn : "007" <> EmptyString) by discriminate.
  assert (Hm : "7" <> EmptyString) by discriminate.
  split; [exact Hn|]. split; [reflexivity|]. split; [exact Hm|].
  split; [reflexivity|].
  exact (regexp_facts.FindStringSubmatch_finds "M" "007" "7" "8"
           Hn eq_refl Hm eq_refl).
Defined.

(** What the pattern matched in the peer's report. *)
Lemma FindStringSubmatch_sound_witness :
  regexp.FindStringSubmatch msgSeqNumTooLowRegex peer_report
    = Some [Fixture.expecting_42; "42"] /\
  exists pre n m post,
    peer_report = (pre ++ "MsgSeqNum too low, expecting " ++ n ++
                   " but received " ++ m ++ post)%string /\
    [Fixture.expecting_42; "42"]
      = [("MsgSeqNum too low, expecting " ++ n ++ " but received " ++ m)%string;
         n] /\
    n <> EmptyString /\ all_digits n = true /\
    m <> EmptyString /\ all_digits m = true.
Proof.
  assert (Hre : regexp.FindStringSubmatch msgSeqNumTooLowRegex peer_report
                = Some [Fixture.expecting_42; "42"]) by reflexivity.
  split; [exact Hre|].
  exact (regexp_exact.FindStringSubmatch_sound peer_report _ Hre).
Defined.

(** The peer's report, flag on: the sender sequence number becomes 42. *)
Lemma too_low_report_outcome_witness :
  has_type (Fixture.logout peer_report) msgTypeLogout /\
  GetString (Body (Fixture.logout peer_report)) tagText = inl peer_report /\
  FixMsgIn (Fixture.logout peer_report) (Fixture.awaiting true None) =
    (Returned latentState,
     advanced (Fixture.awaiting true None) (Fixture.mkWorld None 42 2 [] [])
       [logout_event (Fixture.logout peer_report); forcing_event 42;
        session_forceNextSenderMsgSeqNum 42]).
Proof.
  assert (Hn : "42" <> EmptyString) by discriminate.
  assert (Hm : "7" <> EmptyString) by discriminate.
  split; [reflexivity|]. split; [reflexivity|].
  exact (too_low_report_outcome
           (Fixture.awaiting true None) (Fixture.logout peer_report)
           "Peer: " "42" "7" "." eq_refl eq_refl eq_refl Hn eq_refl Hm eq_refl
           eq_refl).
Defined.

End Coverage_examples.
